(** * Action rule evaluation and webhook action performers (hmalib)

    A shallow embedding of
    - [hmalib/lambdas/actions/action_evaluator.py] (module [Evaluator]) and
    - [hmalib/common/actioner_models.py] (module [Performer]),
    followed by the properties established about them. *)

From stdpp Require Import gmap strings list.

(** ** Data model *)

(** Modelled from the spec: the classes [Label], [ActionLabel],
    [ThreatExchangeReactionLabel] of [hmalib.common.classification_models]
    and [hmalib.common.evaluator_models] are declared outside the two source
    files.  A label is an opaque tag with a string-valued identity; all labels
    compare and hash by value within one namespace. *)
Definition Label : Type := string.
Definition ActionLabel : Type := string.
Definition ThreatExchangeReactionLabel : Type := string.

(** [ActionRule(name, action_label, must_have_labels, must_not_have_labels)],
    as built in the [__main__] block of the evaluator. *)
Record ActionRule : Type := mkActionRule {
  name : string;
  action_label : ActionLabel;
  must_have_labels : gset Label;
  must_not_have_labels : gset Label
}.

#[global] Instance ActionRule_eq_dec : EqDecision ActionRule.
Proof. solve_decision. Defined.

(** [Action(action_label, priority, superseded_by_action_label)], as built by
    [get_actions]. *)
Record Action : Type := mkAction {
  act_label : ActionLabel;
  priority : Z;
  superseded_by : list ActionLabel
}.

(** [BankedSignal(banked_content_id, bank_id, bank_source)] with the set of
    classifications that [add_classification] fills in. *)
Record BankedSignal : Type := mkBankedSignal {
  banked_content_id : string;
  bank_id : string;
  bank_source : string;
  classifications : gset Label
}.

(** [MatchMessage(content_key, content_hash, matching_banked_signals)]. *)
Record MatchMessage : Type := mkMatchMessage {
  content_key : string;
  content_hash : string;
  matching_banked_signals : list BankedSignal
}.

(** Exceptions that the modelled code can raise or let through. *)
Inductive Exn : Type :=
| TypeError (msg : string)
| JSONDecodeError (msg : string)
| KeyError (key : string)
| RequestException (msg : string)
| ClientError (msg : string)
| NoRegionError.

(** ** Effects

    The handler and the performers talk to the outside world (a queue, an
    HTTP endpoint) and may raise.  A computation threads the record [S] of
    what has been sent so far and ends with a value or with an exception;
    what was sent before an exception stays sent. *)
Module Eff.
Section Monad.
Context {S : Type}.

Definition M (A : Type) : Type := S → (Exn + A) * S.

Definition ret {A} (a : A) : M A := λ s, (inr a, s).

Definition raise {A} (e : Exn) : M A := λ s, (inl e, s).

Definition bind {A B} (c : M A) (k : A → M B) : M B :=
  λ s, match c s with
       | (inr a, s') => k a s'
       | (inl e, s') => (inl e, s')
       end.

(** lifts a result computed without effects, raising its exception *)
Definition lift {A} (r : Exn + A) : M A :=
  match r with inl e => raise e | inr a => ret a end.

(** [for x in xs: body(x)] *)
Fixpoint for_each {A} (xs : list A) (body : A → M unit) : M unit :=
  match xs with
  | [] => ret tt
  | x :: xs' => bind (body x) (λ _, for_each xs' body)
  end.
End Monad.
Arguments M : clear implicits.
End Eff.

#[global] Instance Eff_ret {S} : MRet (Eff.M S) := λ A, Eff.ret.
#[global] Instance Eff_bind {S} : MBind (Eff.M S) := λ A B k c, Eff.bind c k.

(** ** Python dictionaries

    A [dict] keeps its keys in insertion order and holds each key once.  The
    evaluator reads the keys back in that order ([list(d.keys())]), so the
    order is part of the model: an association list with unique keys. *)
Module PyDict.
Section Dict.
Context {V : Type}.

Definition t : Type := list (string * V).

(** [d.get(k)], [None] when the key is absent *)
Fixpoint get (k : string) (d : t) : option V :=
  match d with
  | [] => None
  | (k', v) :: d' => if decide (k = k') then Some v else get k d'
  end.

(** [k in d] *)
Definition contains (k : string) (d : t) : bool :=
  match get k d with Some _ => true | None => false end.

(** [d[k] = f(d[k])] for a key that is present: the entry keeps its place *)
Fixpoint update (k : string) (f : V → V) (d : t) : t :=
  match d with
  | [] => []
  | (k', v) :: d' =>
      if decide (k = k') then (k', f v) :: d' else (k', v) :: update k f d'
  end.

(** [d[k] = v]: replaces in place, or adds the key at the end *)
Definition set (k : string) (v : V) (d : t) : t :=
  if contains k d then update k (λ _, v) d else (d ++ [(k, v)])%list.

(** [list(d.keys())] *)
Definition keys (d : t) : list string := d.*1.
End Dict.
Arguments t : clear implicits.
End PyDict.

(** ** The evaluator: [action_evaluator.py] *)
Module Evaluator.

(** *** Built-in set predicates

    [set.issubset] and [set.isdisjoint] walk the entries of one set and probe
    the other.  The order in which a set hands out its entries depends on the
    hashes of its members and so on the interpreter's hash seed; it is the
    parameter [iter]. *)
Section SetMethods.
Variable iter : gset Label → list Label.

(** [so.issubset(other)]: a bigger set is never a subset; otherwise every
    entry of [so] is looked up in [other], stopping at the first miss. *)
Definition issubset (so other : gset Label) : bool :=
  if decide (size other < size so) then false
  else forallb (λ key, bool_decide (key ∈ other)) (iter so).

(** [so.isdisjoint(other)]: the smaller set is walked and each entry is
    looked up in the bigger one, stopping at the first hit. *)
Definition isdisjoint (so other : gset Label) : bool :=
  let (so, other) :=
    if decide (size so < size other) then (other, so) else (so, other) in
  negb (existsb (λ key, bool_decide (key ∈ so)) (iter other)).

(** [action_rule_applies_to_classifications] *)
Definition action_rule_applies_to_classifications
    (action_rule : ActionRule) (classifications : gset Label) : bool :=
  issubset action_rule.(must_have_labels) classifications
  && isdisjoint action_rule.(must_not_have_labels) classifications.

(** the body of the inner [if]/[else] of [get_actions_to_take]: append to
    the list already stored under the rule's label, or store a new
    one-element list *)
Definition record_action_rule
    (action_label_to_action_rules : PyDict.t (list ActionRule))
    (action_rule : ActionRule) : PyDict.t (list ActionRule) :=
  if PyDict.contains action_rule.(action_label) action_label_to_action_rules
  then PyDict.update action_rule.(action_label)
         (λ rules, rules ++ [action_rule]) action_label_to_action_rules
  else PyDict.set action_rule.(action_label) [action_rule]
         action_label_to_action_rules.

(** [for action_rule in action_rules: if ...applies...: ...] *)
Definition evaluate_banked_signal (action_rules : list ActionRule)
    (action_label_to_action_rules : PyDict.t (list ActionRule))
    (banked_signal : BankedSignal) : PyDict.t (list ActionRule) :=
  fold_left
    (λ d action_rule,
       if action_rule_applies_to_classifications action_rule
            banked_signal.(classifications)
       then record_action_rule d action_rule
       else d)
    action_rules action_label_to_action_rules.

(** the two nested loops of [get_actions_to_take], before supersession *)
Definition triggered_action_rules (match_message : MatchMessage)
    (action_rules : list ActionRule) : PyDict.t (list ActionRule) :=
  fold_left (evaluate_banked_signal action_rules)
    match_message.(matching_banked_signals) [].
End SetMethods.

(** [get_actions]: the catalog is the one hard-coded entry. *)
Definition get_actions : list Action :=
  [ mkAction "EnqueueForReview" 1 ["A_MORE_IMPORTANT_ACTION"%string] ].

(** [remove_superseded_actions]: returns its argument. *)
Definition remove_superseded_actions
    (action_label_to_action_rules : PyDict.t (list ActionRule))
  : PyDict.t (list ActionRule) :=
  action_label_to_action_rules.

(** [get_actions_to_take] *)
Definition get_actions_to_take (iter : gset Label → list Label)
    (match_message : MatchMessage) (action_rules : list ActionRule)
  : PyDict.t (list ActionRule) :=
  remove_superseded_actions
    (triggered_action_rules iter match_message action_rules).

(** [threat_exchange_reacting_is_enabled] *)
Definition threat_exchange_reacting_is_enabled
    (match_message : MatchMessage) : bool := true.

(** [get_threat_exchange_reaction_labels] *)
Definition get_threat_exchange_reaction_labels (match_message : MatchMessage)
    (action_labels : list ActionLabel) : list ThreatExchangeReactionLabel :=
  ["SAW_THIS_TOO"%string].

(** Modelled from the spec: [ActionMessage] and [ReactionMessage] of
    [hmalib.common.message_models] are declared outside the two source files.
    An ActionMessage carries the originating MatchMessage, the action label
    and the full list of contributing rules; a ReactionMessage the
    MatchMessage and the reaction label. *)
Record ActionMessage : Type := mkActionMessage {
  am_match_message : MatchMessage;
  am_action_label : ActionLabel;
  am_action_rules : list ActionRule
}.

Record ReactionMessage : Type := mkReactionMessage {
  rm_match_message : MatchMessage;
  rm_reaction_label : ThreatExchangeReactionLabel
}.

(** the text produced by [to_aws_json], kept symbolic: it stands for the
    serialised form of the message it is built from *)
Inductive AwsJson : Type :=
| ActionMessage_to_aws_json (m : ActionMessage)
| ReactionMessage_to_aws_json (m : ReactionMessage).

(** one [sqs_client.send_message(QueueUrl=..., MessageBody=...)] *)
Record SentMessage : Type := mkSentMessage {
  QueueUrl : string;
  MessageBody : AwsJson
}.

(** the fields of [ActionEvaluatorConfig] that the handler reads; the SQS
    client is the list of messages that the queues have accepted from it *)
Record ActionEvaluatorConfig : Type := mkActionEvaluatorConfig {
  actions_queue_url : string;
  reactions_queue_url : string
}.

(** an entry of [event["Records"]] *)
Record SqsRecord : Type := mkSqsRecord { body : string }.

(** The handler calls two services that it does not control, the config
    repository and the queues.  Either can answer differently from one call
    to the next, and either can raise.  What a service answers is a
    function of the point the invocation has reached, and that point is
    given by the messages accepted so far: the handler never calls the same
    service twice at the same point, since between two reads of the rules
    at least the reaction message of the earlier record is accepted, each
    accepted message moves the point on, and a call that raises ends the
    invocation. *)
Section Handler.
(** the iteration order of sets, as above *)
Variable iter : gset Label → list Label.
(** [json.loads(body)["Message"]]: the SNS payload inside an SQS body, or
    the exception raised on a body that is not such an envelope *)
Variable json_loads_Message : string → Exn + string.
(** [MatchMessage.from_aws_json], declared in [hmalib.common.message_models] *)
Variable MatchMessage_from_aws_json : string → Exn + MatchMessage.
(** [ActionRule.get_all()]: the rules the config repository holds when it
    is read at this point, or the exception the read raises *)
Variable ActionRule_get_all : list SentMessage → Exn + list ActionRule.
(** what the queue service does with a message handed to it at this point:
    it accepts the message, or the call raises *)
Variable sqs_client_send_message :
  list SentMessage → SentMessage → option Exn.

(** [config.sqs_client.send_message(QueueUrl=..., MessageBody=...)]: an
    accepted message joins the messages sent; a call that raises leaves
    them as they are *)
Definition send_message (queue_url : string) (message_body : AwsJson)
  : Eff.M (list SentMessage) unit :=
  λ sent,
    match sqs_client_send_message sent
            (mkSentMessage queue_url message_body) with
    | Some e => (inl e, sent)
    | None => (inr tt, sent ++ [mkSentMessage queue_url message_body])
    end.

(** [get_action_rules] *)
Definition get_action_rules : Eff.M (list SentMessage) (list ActionRule) :=
  λ sent, (ActionRule_get_all sent, sent).

(** the body of [for sqs_record in event["Records"]] *)
Definition process_record (config : ActionEvaluatorConfig)
    (sqs_record : SqsRecord) : Eff.M (list SentMessage) unit :=
  sqs_record_body_Message ← Eff.lift (json_loads_Message sqs_record.(body));
  match_message ←
    Eff.lift (MatchMessage_from_aws_json sqs_record_body_Message);
  action_rules ← get_action_rules;
  let action_label_to_action_rules :=
    get_actions_to_take iter match_message action_rules in
  let action_labels := PyDict.keys action_label_to_action_rules in
  Eff.for_each action_labels (λ action_label,
    match PyDict.get action_label action_label_to_action_rules with
    | None => Eff.raise (KeyError action_label)
    | Some rules =>
        let action_message :=
          mkActionMessage match_message action_label rules in
        send_message config.(actions_queue_url)
          (ActionMessage_to_aws_json action_message)
    end);;
  if threat_exchange_reacting_is_enabled match_message then
    let threat_exchange_reaction_labels :=
      get_threat_exchange_reaction_labels match_message action_labels in
    match threat_exchange_reaction_labels with
    | [] => Eff.ret tt
    | _ :: _ =>
        Eff.for_each threat_exchange_reaction_labels
          (λ threat_exchange_reaction_label,
             let threat_exchange_reaction_message :=
               mkReactionMessage match_message
                 threat_exchange_reaction_label in
             send_message config.(reactions_queue_url)
               (ReactionMessage_to_aws_json
                  threat_exchange_reaction_message))
    end
  else Eff.ret tt.

(** [lambda_handler]; [config] is the result of
    [ActionEvaluatorConfig.get()] *)
Definition lambda_handler (config : ActionEvaluatorConfig)
    (Records : list SqsRecord)
  : Eff.M (list SentMessage) (list (string * string)) :=
  Eff.for_each Records (process_record config);;
  Eff.ret [("evaluation_completed", "true")]%string.
End Handler.

End Evaluator.

(** ** The performers: [actioner_models.py] *)
Module Performer.

Inductive HttpMethod : Type := POST | GET | PUT | DELETE.

(** one call of [requests.post], [get], [put] or [delete] *)
Record HttpRequest : Type := mkHttpRequest {
  http_method : HttpMethod;
  http_url : string;
  http_data : option string
}.

(** [requests.Response], by its status code *)
Record Response : Type := mkResponse { status_code : Z }.

(** [Response.ok]: [raise_for_status] would not raise, that is the status
    is not a client error (400 to 499) nor a server error (500 to 599) *)
Definition ok (r : Response) : bool :=
  negb (bool_decide (400 ≤ r.(status_code) < 600)%Z).

(** The four subtypes listed by [ActionPerformer.get_subtype_classes], each
    a dataclass with the fields [name] (from the config base class) and
    [url]. *)
Inductive ActionPerformer : Type :=
| WebhookPostActionPerformer (name url : string)
| WebhookGetActionPerformer (name url : string)
| WebhookPutActionPerformer (name url : string)
| WebhookDeleteActionPerformer (name url : string).

Definition url (self : ActionPerformer) : string :=
  match self with
  | WebhookPostActionPerformer _ u | WebhookGetActionPerformer _ u
  | WebhookPutActionPerformer _ u | WebhookDeleteActionPerformer _ u => u
  end.

(** A method of one argument besides [self]: the name of its formal
    parameter and its body. *)
Record Method (S A : Type) : Type := mkMethod {
  formal : string;
  run : string → Eff.M S A
}.
Arguments mkMethod {S A}.
Arguments formal {S A}.
Arguments run {S A}.

(** [m(kw=value)]: a keyword argument is bound to the formal parameter of
    that name; Python raises [TypeError] when there is none. *)
Definition call_with_keyword {S A} (fname : string) (m : Method S A)
    (kw : string) (value : string) : Eff.M S A :=
  if decide (m.(formal) = kw) then m.(run) value
  else Eff.raise
         (TypeError (fname ++ "() got an unexpected keyword argument '"
                     ++ kw ++ "'")%string).

Section Webhooks.
(** what the endpoint does with a request: answers with a response or the
    call raises (connection refused, time-out, ...) *)
Variable respond : HttpRequest → Exn + Response.
(** [json.dumps(match_message.to_aws())]; [to_aws] is declared in
    [hmalib.common.message_models] *)
Variable json_dumps_to_aws : MatchMessage → string.

(** a call into [requests]: the request goes out, then the response comes
    back or the exception is raised *)
Definition request (meth : HttpMethod) (u : string) (data : option string)
  : Eff.M (list HttpRequest) Response :=
  λ sent, (respond (mkHttpRequest meth u data),
           sent ++ [mkHttpRequest meth u data]).

Definition post (u data : string) := request POST u (Some data).
Definition get (u : string) := request GET u None.
Definition put (u data : string) := request PUT u (Some data).
Definition delete (u : string) := request DELETE u None.

(** the [call] method of each subtype, with its parameter as declared *)
Definition call (self : ActionPerformer)
  : Method (list HttpRequest) Response :=
  match self with
  | WebhookPostActionPerformer _ _ =>
      mkMethod "data" (λ data, post (url self) data)
  | WebhookGetActionPerformer _ _ =>
      mkMethod "_data" (λ _data, get (url self))
  | WebhookPutActionPerformer _ _ =>
      mkMethod "data" (λ data, put (url self) data)
  | WebhookDeleteActionPerformer _ _ =>
      mkMethod "_data" (λ _data, delete (url self))
  end.

(** [WebhookActionPerformer.perform_action], inherited by the four
    subtypes: [self.call(data=json.dumps(match_message.to_aws()))], the
    response is dropped and [None] is returned *)
Definition perform_action (self : ActionPerformer)
    (match_message : MatchMessage) : Eff.M (list HttpRequest) unit :=
  _ ← call_with_keyword "call" (call self) "data"
        (json_dumps_to_aws match_message);
  mret tt.
End Webhooks.

End Performer.

(** ** The configuration holder: [ActionEvaluatorConfig.get] *)
Module EvaluatorConfig.
Import Evaluator.

(** what [get] leaves behind: the table names handed to
    [HMAConfig.initialize], in call order, and the entry kept by
    [lru_cache(maxsize=None)] for the one class [get] is called on *)
Record State : Type := mkState {
  HMAConfig_initialized : list string;
  lru_cache : option ActionEvaluatorConfig
}.

(** [os.environ[key]]: [KeyError] for a variable that is not set *)
Definition os_environ (environ : gmap string string) (key : string)
  : Eff.M State string :=
  match environ !! key with
  | Some value => Eff.ret value
  | None => Eff.raise (KeyError key)
  end.

(** [HMAConfig.initialize(table_name)], by the call it receives *)
Definition HMAConfig_initialize (table_name : string) : Eff.M State unit :=
  λ st, (inr tt,
         mkState (st.(HMAConfig_initialized) ++ [table_name]) st.(lru_cache)).

(** the body of [get]: the table name is read for the log line and again
    for [HMAConfig.initialize], then the keyword arguments of [cls(...)]
    are evaluated in order: the two queue URLs are read and
    [boto3.client("sqs")] is called.  [boto3_client_sqs] is what that call
    does where [get] runs: it yields the client that the handler sends
    through, or it raises (no region configured, ...). *)
Definition get_body (boto3_client_sqs : Exn + unit)
    (environ : gmap string string) : Eff.M State ActionEvaluatorConfig :=
  _ ← os_environ environ "CONFIG_TABLE_NAME";
  table_name ← os_environ environ "CONFIG_TABLE_NAME";
  HMAConfig_initialize table_name;;
  actions_queue_url ← os_environ environ "ACTIONS_QUEUE_URL";
  reactions_queue_url ← os_environ environ "REACTIONS_QUEUE_URL";
  _ ← Eff.lift boto3_client_sqs;
  mret (mkActionEvaluatorConfig actions_queue_url reactions_queue_url).

(** [ActionEvaluatorConfig.get()] in the environment [environ]: the cached
    value when there is one; otherwise the body runs, and its value is
    cached when it returns one (an exception is not cached) *)
Definition get (boto3_client_sqs : Exn + unit)
    (environ : gmap string string) : Eff.M State ActionEvaluatorConfig :=
  λ st,
    match st.(lru_cache) with
    | Some config => (inr config, st)
    | None =>
        match get_body boto3_client_sqs environ st with
        | (inr config, st') =>
            (inr config, mkState st'.(HMAConfig_initialized) (Some config))
        | (inl e, st') => (inl e, st')
        end
    end.

End EvaluatorConfig.

(** ** An invocation, from its first line *)
Module Invocation.
Import Evaluator.

Section Invoke.
Variable iter : gset Label → list Label.
Variable json_loads_Message : string → Exn + string.
Variable MatchMessage_from_aws_json : string → Exn + MatchMessage.
Variable ActionRule_get_all : list SentMessage → Exn + list ActionRule.
Variable sqs_client_send_message :
  list SentMessage → SentMessage → option Exn.

(** [lambda_handler(event, context)] in the environment [environ]:
    [config = ActionEvaluatorConfig.get()], then the loop over the records
    with that configuration.  The state is that of the configuration
    holder together with the messages sent. *)
Definition lambda_handler_in (boto3_client_sqs : Exn + unit)
    (environ : gmap string string) (Records : list SqsRecord)
  : Eff.M (EvaluatorConfig.State * list SentMessage)
      (list (string * string)) :=
  λ state,
    match EvaluatorConfig.get boto3_client_sqs environ state.1 with
    | (inl e, st') => (inl e, (st', state.2))
    | (inr config, st') =>
        match lambda_handler iter json_loads_Message
                MatchMessage_from_aws_json ActionRule_get_all
                sqs_client_send_message config Records state.2 with
        | (result, sent') => (result, (st', sent'))
        end
    end.
End Invoke.
End Invocation.

(** * Vocabulary of the properties *)

(** ** Supersession, as the catalog describes it *)
Section SupersessionVocabulary.
Import Evaluator.

(** the catalog of the example: [A] with priority 1, superseded by
    nothing, and [B] with priority 2, superseded by [A] *)
Definition actions_A_B : list Action :=
  [ mkAction "A" 1 []; mkAction "B" 2 ["A"%string] ].

Definition rule_A : ActionRule := mkActionRule "rule for A" "A" ∅ ∅.
Definition rule_B : ActionRule := mkActionRule "rule for B" "B" ∅ ∅.

(** both labels triggered, each by its rule *)
Definition triggered_A_B : PyDict.t (list ActionRule) :=
  [ ("A", [rule_A]); ("B", [rule_B]) ]%string.

Definition find_action (actions : list Action) (l : ActionLabel)
  : option Action :=
  List.find (λ a : Action, bool_decide (a.(act_label) = l)) actions.

(** Modelled from the spec: the resolution rule of its section 4.2, which
    the source leaves unimplemented.  A triggered label [l] is superseded
    when another triggered label [l'] appears in the [superseded_by] list
    of [l], unless [l] has the numerically lower priority, or the two have
    the same priority and supersede each other (then both are kept).  A
    label without an [Action] in the catalog is never superseded. *)
Definition superseded_per_spec (actions : list Action)
    (triggered : list ActionLabel) (l : ActionLabel) : bool :=
  match find_action actions l with
  | None => false
  | Some a =>
      existsb
        (λ l',
           negb (bool_decide (l' = l))
           && bool_decide (l' ∈ a.(superseded_by))
           && match find_action actions l' with
              | None => true
              | Some a' =>
                  negb (bool_decide (a.(priority) < a'.(priority))%Z)
                  && negb (bool_decide (a.(priority) = a'.(priority))
                           && bool_decide (l ∈ a'.(superseded_by)))
              end)
        triggered
  end.

(** Modelled from the spec: [resolve(triggered, actions)] of section 4.2,
    the triggered map without its superseded labels. *)
Definition resolve_per_spec (actions : list Action)
    (triggered : PyDict.t (list ActionRule)) : PyDict.t (list ActionRule) :=
  List.filter
    (λ entry, negb (superseded_per_spec actions (PyDict.keys triggered)
                      entry.1))
    triggered.
End SupersessionVocabulary.

(** ** The map built by the two loops, entry by entry *)
Section TriggeredVocabulary.
Import Evaluator.

Variable iter : gset Label → list Label.

(** the list under [l] once [fired] has been appended to it, created when
    it was not there *)
Definition extend (o : option (list ActionRule)) (fired : list ActionRule)
  : option (list ActionRule) :=
  match fired with
  | [] => o
  | _ :: _ => Some (default [] o ++ fired)
  end.

(** the rules with label [l] that apply to one signal, in rule order *)
Definition fired_on (l : ActionLabel) (action_rules : list ActionRule)
    (banked_signal : BankedSignal) : list ActionRule :=
  List.filter
    (λ action_rule,
       action_rule_applies_to_classifications iter action_rule
         banked_signal.(classifications)
       && bool_decide (action_rule.(action_label) = l))
    action_rules.

(** the same over all signals of a message, in signal order: one entry
    for each (signal, rule) pair in which the rule applies *)
Definition fired_pairs (l : ActionLabel) (match_message : MatchMessage)
    (action_rules : list ActionRule) : list ActionRule :=
  flat_map (fired_on l action_rules) match_message.(matching_banked_signals).

(** the signals of a message that satisfy a rule *)
Definition satisfying_signals (action_rule : ActionRule)
    (match_message : MatchMessage) : list BankedSignal :=
  List.filter
    (λ banked_signal,
       action_rule_applies_to_classifications iter action_rule
         banked_signal.(classifications))
    match_message.(matching_banked_signals).
End TriggeredVocabulary.

(** ** What the handler is expected to send *)
Section HandlerVocabulary.
Import Evaluator.

Variable iter : gset Label → list Label.
Variable json_loads_Message : string → Exn + string.
Variable MatchMessage_from_aws_json : string → Exn + MatchMessage.
Variable action_rules : list ActionRule.

(** a config repository that answers every read with the same rules *)
Definition store_holds (sent : list SentMessage)
  : Exn + list ActionRule :=
  inr action_rules.

(** a queue service that accepts every message *)
Definition queue_accepts (sent : list SentMessage) (message : SentMessage)
  : option Exn :=
  None.

(** the first two statements of the loop body: the MatchMessage of a
    record, or the exception raised on the way to it *)
Definition decode (sqs_record : SqsRecord) : Exn + MatchMessage :=
  match json_loads_Message sqs_record.(body) with
  | inl e => inl e
  | inr message => MatchMessage_from_aws_json message
  end.

(** the messages that evaluating one MatchMessage against the rules hands
    to the queues: an ActionMessage per label of the map, in key order,
    then the reaction *)
Definition emitted (config : ActionEvaluatorConfig)
    (match_message : MatchMessage) : list SentMessage :=
  map (λ entry,
         mkSentMessage config.(actions_queue_url)
           (ActionMessage_to_aws_json
              (mkActionMessage match_message entry.1 entry.2)))
      (get_actions_to_take iter match_message action_rules)
  ++ [ mkSentMessage config.(reactions_queue_url)
         (ReactionMessage_to_aws_json
            (mkReactionMessage match_message "SAW_THIS_TOO")) ].

End HandlerVocabulary.

(** ** Handing a list of messages to the queues *)
Section SendingVocabulary.
Import Evaluator.

Variable sqs_client_send_message :
  list SentMessage → SentMessage → option Exn.

(** the messages are handed over one after the other, up to the first one
    that raises *)
Definition send_all (messages : list SentMessage)
  : Eff.M (list SentMessage) unit :=
  Eff.for_each messages
    (λ message,
       send_message sqs_client_send_message message.(QueueUrl)
         message.(MessageBody)).
End SendingVocabulary.

(** ** What a performer is expected to request *)
Section PerformerVocabulary.
Import Performer.

Variable respond : HttpRequest → Exn + Response.
Variable json_dumps_to_aws : MatchMessage → string.

Definition http_method_of (self : ActionPerformer) : HttpMethod :=
  match self with
  | WebhookPostActionPerformer _ _ => POST
  | WebhookGetActionPerformer _ _ => GET
  | WebhookPutActionPerformer _ _ => PUT
  | WebhookDeleteActionPerformer _ _ => DELETE
  end.

(** the POST and PUT subtypes pass their argument on to [requests] *)
Definition sends_body (self : ActionPerformer) : bool :=
  match self with
  | WebhookPostActionPerformer _ _ | WebhookPutActionPerformer _ _ => true
  | WebhookGetActionPerformer _ _ | WebhookDeleteActionPerformer _ _ => false
  end.

(** the one request a performer is meant to make for a message *)
Definition webhook_request (self : ActionPerformer)
    (match_message : MatchMessage) : HttpRequest :=
  mkHttpRequest (http_method_of self) (url self)
    (if sends_body self then Some (json_dumps_to_aws match_message)
     else None).

(** a dispatch that went wrong: the call raised, or the response is not a
    success *)
Definition dispatch_failed (request : HttpRequest) : bool :=
  match respond request with
  | inl _ => true
  | inr response => negb (ok response)
  end.

(** dispatch failures reach the caller, as the specification asks for it:
    when a request made by [perform_action] went wrong, [perform_action]
    ends with an exception *)
Definition dispatch_failure_surfaced (self : ActionPerformer)
    (match_message : MatchMessage) : Prop :=
  ∀ request,
    request ∈ (perform_action respond json_dumps_to_aws self match_message
                 []).2 →
    dispatch_failed request = true →
    ∃ e, (perform_action respond json_dumps_to_aws self match_message []).1
         = inl e.
End PerformerVocabulary.

(** ** Concrete inputs *)
Section Examples.
Import Evaluator Performer.

(** the rule of the testable property: must have [C1], must not have [C3] *)
Definition rule_C1_not_C3 : ActionRule :=
  mkActionRule "C1 without C3" "EnqueueForReview" {["C1"]} {["C3"]}.

(** a rule that asks for [C1] and forbids it *)
Definition rule_contradictory : ActionRule :=
  mkActionRule "contradictory" "EnqueueForReview" {["C1"; "C2"]} {["C1"]}.

Definition signal_C1_C2 : BankedSignal :=
  mkBankedSignal "2862392437204724" "bank 4" "te" {["C1"; "C2"]}.
Definition signal_C1 : BankedSignal :=
  mkBankedSignal "4194946153908639" "bank 4" "te" {["C1"]}.
Definition signal_C1_C3 : BankedSignal :=
  mkBankedSignal "4169895076385542" "bank 4" "te" {["C1"; "C3"]}.

Definition message_two_hits : MatchMessage :=
  mkMatchMessage "key" "hash" [signal_C1_C2; signal_C1_C3; signal_C1].

(** sets walked from the other end *)
Definition elements_rev (X : gset Label) : list Label := reverse (elements X).

(** a stand-in for the envelope parser: one body is not JSON *)
Definition toy_json_loads_Message (body : string) : Exn + string :=
  if decide (body = "not json") then inl (JSONDecodeError "Expecting value")
  else inr body.

(** a stand-in for [MatchMessage.from_aws_json]: the payload is the content
    key of a message with one matching signal *)
Definition toy_from_aws_json (message : string) : Exn + MatchMessage :=
  inr (mkMatchMessage message "hash" [signal_C1]).

Definition toy_config : ActionEvaluatorConfig :=
  mkActionEvaluatorConfig "actions-queue" "reactions-queue".

(** a batch of three notifications, the second one malformed *)
Definition batch_of_three : list SqsRecord :=
  [ mkSqsRecord "first"; mkSqsRecord "not json"; mkSqsRecord "third" ].

(** a stand-in for the serialiser of a MatchMessage *)
Definition toy_json_dumps_to_aws (match_message : MatchMessage) : string :=
  "MatchMessage " ++ match_message.(content_key) ++ " "
  ++ match_message.(content_hash).

(** an endpoint that answers every request with status 500 *)
Definition respond_500 (request : HttpRequest) : Exn + Response :=
  inr (mkResponse 500).

(** an endpoint that cannot be reached *)
Definition respond_unreachable (request : HttpRequest) : Exn + Response :=
  inl (RequestException "connection refused").

Definition notify : ActionPerformer :=
  WebhookPostActionPerformer "Notify" "https://example.test/hook".
End Examples.

(** ** The evaluation as a whole *)
Section EvaluationVocabulary.
Import Evaluator.

Variable iter : gset Label → list Label.

(** the rules that apply, in the order the two loops meet them: signal by
    signal, and for each signal rule by rule *)
Definition applying_rules (match_message : MatchMessage)
    (action_rules : list ActionRule) : list ActionRule :=
  flat_map
    (λ banked_signal,
       List.filter
         (λ action_rule,
            action_rule_applies_to_classifications iter action_rule
              banked_signal.(classifications))
         action_rules)
    match_message.(matching_banked_signals).

(** the rules stored under a label, none when the label is not a key *)
Definition rules_under (l : ActionLabel) (d : PyDict.t (list ActionRule))
  : list ActionRule :=
  default [] (PyDict.get l d).

(** the number of rules stored in a map, all labels together *)
Definition recorded_total (d : PyDict.t (list ActionRule)) : nat :=
  sum_list (length <$> d.*2).

(** the members of a list in the order of their first occurrence *)
Fixpoint first_occurrences (xs : list string) : list string :=
  match xs with
  | [] => []
  | x :: xs' => x :: filter (λ y, y ≠ x) (first_occurrences xs')
  end.
End EvaluationVocabulary.

(** ** A batch, record by record *)
Section BatchVocabulary.
Import Evaluator.

Variable json_loads_Message : string → Exn + string.
Variable MatchMessage_from_aws_json : string → Exn + MatchMessage.

(** the MatchMessages of the records that come before the first record
    that fails to decode (of all records when none fails) *)
Fixpoint decoded_prefix (Records : list SqsRecord) : list MatchMessage :=
  match Records with
  | [] => []
  | sqs_record :: Records' =>
      match decode json_loads_Message MatchMessage_from_aws_json
              sqs_record with
      | inr match_message => match_message :: decoded_prefix Records'
      | inl _ => []
      end
  end.

(** the exception of the first record that fails to decode *)
Fixpoint first_failure (Records : list SqsRecord) : option Exn :=
  match Records with
  | [] => None
  | sqs_record :: Records' =>
      match decode json_loads_Message MatchMessage_from_aws_json
              sqs_record with
      | inr _ => first_failure Records'
      | inl e => Some e
      end
  end.

(** a message whose body is a ReactionMessage *)
Definition is_reaction (message : SentMessage) : bool :=
  match message.(MessageBody) with
  | ReactionMessage_to_aws_json _ => true
  | ActionMessage_to_aws_json _ => false
  end.
End BatchVocabulary.

(** ** The variables the configuration is read from *)
Section ConfigVocabulary.

(** the environment variables [get] reads, in the order it reads them *)
Definition required_variables : list string :=
  [ "CONFIG_TABLE_NAME"; "ACTIONS_QUEUE_URL"; "REACTIONS_QUEUE_URL" ]%string.

(** the first of them that is not set *)
Definition first_missing (environ : gmap string string) : option string :=
  List.find (λ key, bool_decide (environ !! key = None)) required_variables.
End ConfigVocabulary.

(** ** More concrete inputs *)
Section MoreExamples.
Import Evaluator EvaluatorConfig.

(** an environment with the three variables set *)
Definition environ_complete : gmap string string :=
  <["CONFIG_TABLE_NAME" := "hma-config"]>
    (<["ACTIONS_QUEUE_URL" := "actions-queue"]>
       (<["REACTIONS_QUEUE_URL" := "reactions-queue"]> ∅)).

(** an environment in which the reactions queue is not set *)
Definition environ_without_reactions : gmap string string :=
  <["CONFIG_TABLE_NAME" := "hma-config"]>
    (<["ACTIONS_QUEUE_URL" := "actions-queue"]> ∅).

(** a process in which [get] has not been called yet *)
Definition state_cold : State := mkState [] None.

(** a queue service on which every call for a ReactionMessage raises *)
Definition queue_refuses_reactions (sent : list SentMessage)
    (message : SentMessage) : option Exn :=
  if is_reaction message then Some (ClientError "AccessDenied") else None.

(** a batch of two notifications that both decode *)
Definition batch_of_two : list SqsRecord :=
  [ mkSqsRecord "first"; mkSqsRecord "second" ].
End MoreExamples.

(** * Properties *)

(** ** Rule matching *)
Section RuleMatching.
Import Evaluator.

Variable iter : gset Label → list Label.
(** whatever the hash seed, walking a set visits each member once *)
Hypothesis iter_perm : ∀ X, iter X ≡ₚ elements X.

Lemma iter_elem (x : Label) (X : gset Label) : In x (iter X) ↔ x ∈ X.
Proof.
  rewrite <- list_elem_of_In, (iter_perm X). apply elem_of_elements.
Qed.

Lemma issubset_spec (so other : gset Label) :
  issubset iter so other = true ↔ so ⊆ other.
Proof.
  unfold issubset. destruct (decide (size other < size so)) as [Hlt | Hge].
  - split; [discriminate |]. intros Hsub.
    apply subseteq_size in Hsub. lia.
  - rewrite forallb_forall. split.
    + intros Hall x Hx. apply iter_elem, Hall in Hx.
      by apply bool_decide_eq_true in Hx.
    + intros Hsub x Hx. apply bool_decide_eq_true, Hsub.
      by apply iter_elem.
Qed.

Lemma no_hit_spec (walked probed : gset Label) :
  negb (existsb (λ key, bool_decide (key ∈ probed)) (iter walked)) = true
  ↔ walked ## probed.
Proof.
  rewrite negb_true_iff, <- not_true_iff_false, existsb_exists. split.
  - intros Hno x Hw Hp. apply Hno. exists x.
    split; [by apply iter_elem | by apply bool_decide_eq_true].
  - intros Hdisj (x & Hw & Hp). apply iter_elem in Hw.
    apply bool_decide_eq_true in Hp. by apply (Hdisj x).
Qed.

Lemma isdisjoint_spec (so other : gset Label) :
  isdisjoint iter so other = true ↔ so ## other.
Proof.
  unfold isdisjoint. destruct (decide (size so < size other)).
  - rewrite no_hit_spec. split; intros H; by symmetry.
  - rewrite no_hit_spec. split; intros H; by symmetry.
Qed.

(** C1: a rule applies to a set of classifications exactly when its
    must-have labels are a subset of the classifications and its
    must-not-have labels are disjoint from them. *)
Theorem action_rule_applies_iff (action_rule : ActionRule)
    (classifications : gset Label) :
  action_rule_applies_to_classifications iter action_rule classifications
    = true
  ↔ action_rule.(must_have_labels) ⊆ classifications
    ∧ action_rule.(must_not_have_labels) ## classifications.
Proof.
  unfold action_rule_applies_to_classifications.
  by rewrite andb_true_iff, issubset_spec, isdisjoint_spec.
Qed.

(** C6: a rule whose must-have and must-not-have labels share a label
    applies to no set of classifications. *)
Theorem contradictory_rule_never_applies (action_rule : ActionRule)
    (classifications : gset Label) :
  action_rule.(must_have_labels) ∩ action_rule.(must_not_have_labels) ≠ ∅ →
  action_rule_applies_to_classifications iter action_rule classifications
    = false.
Proof.
  intros Hoverlap. apply not_true_iff_false.
  unfold action_rule_applies_to_classifications.
  rewrite andb_true_iff, issubset_spec, isdisjoint_spec.
  intros [Hsub Hdisj]. apply Hoverlap.
  apply set_eq. intros x. split; [| set_solver].
  intros [Hhave Hnot]%elem_of_intersection.
  exfalso. apply (Hdisj x Hnot). by apply Hsub.
Qed.
End RuleMatching.

(** ** Dictionary lookups after an update *)
Section DictFacts.
Context {V : Type}.
Implicit Types (d : PyDict.t V) (k l : string).

Lemma get_update l k (f : V → V) d :
  PyDict.get l (PyDict.update k f d)
  = if decide (l = k) then f <$> PyDict.get l d else PyDict.get l d.
Proof.
  induction d as [| [k' v] d IH]; simpl.
  - by destruct (decide (l = k)).
  - destruct (decide (k = k')) as [-> | Hk]; simpl.
    + destruct (decide (l = k')); [done |]. reflexivity.
    + destruct (decide (l = k')) as [-> | Hl]; [| exact IH].
      destruct (decide (k' = k)); [congruence | done].
Qed.

Lemma get_app_one l k (v : V) d :
  PyDict.get l (d ++ [(k, v)])
  = match PyDict.get l d with
    | Some x => Some x
    | None => if decide (l = k) then Some v else None
    end.
Proof.
  induction d as [| [k' v'] d IH]; simpl; [done |].
  by destruct (decide (l = k')).
Qed.

Lemma contains_get k d :
  PyDict.contains k d = bool_decide (is_Some (PyDict.get k d)).
Proof.
  unfold PyDict.contains. destruct (PyDict.get k d) as [v |].
  - symmetry. apply bool_decide_eq_true. by exists v.
  - symmetry. apply bool_decide_eq_false. by intros [? ?].
Qed.

Lemma keys_get l d : l ∈ PyDict.keys d ↔ is_Some (PyDict.get l d).
Proof.
  unfold PyDict.keys. induction d as [| [k v] d IH]; simpl.
  - split; [by intros ?%elem_of_nil | by intros [? ?]].
  - rewrite elem_of_cons, IH. destruct (decide (l = k)) as [-> | Hne].
    + split; [by eexists | by left].
    + split; [by intros [? | ?] | by right].
Qed.
End DictFacts.

(** ** The map built by the two loops *)
Section Triggered.
Import Evaluator.

Variable iter : gset Label → list Label.

Lemma extend_extend o xs ys : extend (extend o xs) ys = extend o (xs ++ ys).
Proof.
  destruct xs as [| x xs]; [done |]. destruct ys as [| y ys]; simpl.
  - by rewrite app_nil_r.
  - by rewrite <- app_assoc.
Qed.

Lemma get_record_action_rule l d action_rule :
  PyDict.get l (record_action_rule d action_rule)
  = if decide (l = action_rule.(action_label))
    then Some (default [] (PyDict.get l d) ++ [action_rule])
    else PyDict.get l d.
Proof.
  unfold record_action_rule, PyDict.set.
  destruct (PyDict.contains _ d) eqn:Hin.
  - rewrite get_update. destruct (decide _) as [-> | _]; [| done].
    unfold PyDict.contains in Hin.
    by destruct (PyDict.get _ d).
  - rewrite get_app_one. unfold PyDict.contains in Hin.
    destruct (decide _) as [-> | _].
    + by destruct (PyDict.get _ d).
    + by destruct (PyDict.get l d).
Qed.

Lemma get_evaluate_banked_signal l action_rules d banked_signal :
  PyDict.get l (evaluate_banked_signal iter action_rules d banked_signal)
  = extend (PyDict.get l d) (fired_on iter l action_rules banked_signal).
Proof.
  unfold evaluate_banked_signal, fired_on.
  revert d. induction action_rules as [| r rules IH]; intros d; [done |].
  simpl. rewrite IH.
  destruct (action_rule_applies_to_classifications _ r _); simpl; [| done].
  rewrite get_record_action_rule.
  destruct (decide (l = action_label r)) as [-> | Hne].
  - rewrite bool_decide_eq_true_2 by done.
    change (Some (default [] (PyDict.get (action_label r) d) ++ [r]))
      with (extend (PyDict.get (action_label r) d) [r]).
    by rewrite extend_extend.
  - rewrite bool_decide_eq_false_2 by congruence. done.
Qed.

Lemma get_triggered_action_rules l match_message action_rules :
  PyDict.get l (triggered_action_rules iter match_message action_rules)
  = extend None (fired_pairs iter l match_message action_rules).
Proof.
  unfold triggered_action_rules, fired_pairs.
  assert (∀ signals d,
    PyDict.get l (fold_left (evaluate_banked_signal iter action_rules)
                    signals d)
    = extend (PyDict.get l d)
        (flat_map (fired_on iter l action_rules) signals)) as Hgen.
  { induction signals as [| s signals IH]; intros d; [done |].
    simpl. by rewrite IH, get_evaluate_banked_signal, extend_extend. }
  apply Hgen.
Qed.

Lemma get_get_actions_to_take l match_message action_rules :
  PyDict.get l (get_actions_to_take iter match_message action_rules)
  = extend None (fired_pairs iter l match_message action_rules).
Proof. apply get_triggered_action_rules. Qed.

Lemma fired_on_label l action_rules banked_signal r :
  r ∈ fired_on iter l action_rules banked_signal → r.(action_label) = l.
Proof.
  unfold fired_on. rewrite list_elem_of_In, filter_In.
  intros [_ [_ H]%andb_true_iff]. by apply bool_decide_eq_true in H.
Qed.

Lemma count_fired_on (r : ActionRule) action_rules banked_signal :
  count_occ ActionRule_eq_dec
    (fired_on iter r.(action_label) action_rules banked_signal) r
  = if action_rule_applies_to_classifications iter r
         banked_signal.(classifications)
    then count_occ ActionRule_eq_dec action_rules r else 0.
Proof.
  unfold fired_on. induction action_rules as [| r' rules IH]; simpl.
  - by destruct (action_rule_applies_to_classifications _ _ _).
  - destruct (ActionRule_eq_dec r' r) as [-> | Hne].
    + destruct (action_rule_applies_to_classifications _ r _) eqn:Happ;
        simpl.
      * rewrite bool_decide_eq_true_2 by done. simpl.
        destruct (ActionRule_eq_dec r r); [| done]. by rewrite IH.
      * by rewrite IH.
    + destruct (_ && _); simpl; [| exact IH].
      destruct (ActionRule_eq_dec r' r); [done | exact IH].
Qed.

Lemma count_fired_pairs (r : ActionRule) match_message action_rules :
  count_occ ActionRule_eq_dec
    (fired_pairs iter r.(action_label) match_message action_rules) r
  = length (satisfying_signals iter r match_message)
    * count_occ ActionRule_eq_dec action_rules r.
Proof.
  unfold fired_pairs, satisfying_signals.
  induction (matching_banked_signals match_message) as [| s signals IH];
    simpl; [done |].
  rewrite count_occ_app, IH, count_fired_on.
  destruct (action_rule_applies_to_classifications _ r _); simpl; lia.
Qed.
End Triggered.

(** ** Entries of the returned map *)
Section Invariants.
Import Evaluator.

Variable iter : gset Label → list Label.

Lemma keys_update {V} k (f : V → V) (d : PyDict.t V) :
  PyDict.keys (PyDict.update k f d) = PyDict.keys d.
Proof.
  unfold PyDict.keys. induction d as [| [k' v] d IH]; simpl; [done |].
  destruct (decide (k = k')); simpl; [done | f_equal; exact IH].
Qed.

Lemma NoDup_keys_record_action_rule d action_rule :
  NoDup (PyDict.keys d) →
  NoDup (PyDict.keys (record_action_rule d action_rule)).
Proof.
  intros Hnd. unfold record_action_rule, PyDict.set.
  destruct (PyDict.contains _ d) eqn:Hin.
  - by rewrite keys_update.
  - unfold PyDict.keys. rewrite fmap_app. simpl.
    apply NoDup_app. split; [exact Hnd |]. split; [| apply NoDup_singleton].
    intros k Hk ->%list_elem_of_singleton.
    apply keys_get in Hk. unfold PyDict.contains in Hin.
    destruct Hk as [v Hv]. by rewrite Hv in Hin.
Qed.

Lemma NoDup_keys_triggered match_message action_rules :
  NoDup (PyDict.keys
           (triggered_action_rules iter match_message action_rules)).
Proof.
  unfold triggered_action_rules.
  assert (∀ signals (d : PyDict.t (list ActionRule)),
    NoDup (PyDict.keys d) →
    NoDup (PyDict.keys
             (fold_left (evaluate_banked_signal iter action_rules)
                signals d))) as Hgen.
  { induction signals as [| s signals IH]; intros d Hd; [done |].
    simpl. apply IH. unfold evaluate_banked_signal.
    clear IH. revert d Hd.
    induction action_rules as [| r rules IHr]; intros d Hd; [done |].
    simpl. apply IHr.
    destruct (action_rule_applies_to_classifications _ _ _); [| done].
    by apply NoDup_keys_record_action_rule. }
  apply Hgen. constructor.
Qed.

Lemma entry_get {V} (d : PyDict.t V) k v :
  NoDup (PyDict.keys d) → (k, v) ∈ d → PyDict.get k d = Some v.
Proof.
  unfold PyDict.keys. induction d as [| [k' v'] d IH]; simpl.
  - by intros _ ?%elem_of_nil.
  - intros [Hfresh Hnd]%NoDup_cons [Heq | Hin]%elem_of_cons.
    + injection Heq as -> ->. by destruct (decide (k' = k')).
    + destruct (decide (k = k')) as [-> | _]; [| by apply IH].
      exfalso. apply Hfresh. apply list_elem_of_fmap. by exists (k', v).
Qed.

(** C2: when at least two signals of a message satisfy a rule of the rule
    list, the returned map holds, under the rule's action label, the list
    with one entry for every (signal, rule) pair in which a rule of that
    label applies, in evaluation order; the rule occurs in it once per
    satisfying signal for each time it is listed, so at least twice. *)
Theorem satisfied_rule_recorded_per_signal (match_message : MatchMessage)
    (action_rules : list ActionRule) (action_rule : ActionRule) :
  action_rule ∈ action_rules →
  2 ≤ length (satisfying_signals iter action_rule match_message) →
  ∃ recorded,
    PyDict.get action_rule.(action_label)
      (get_actions_to_take iter match_message action_rules) = Some recorded
    ∧ recorded
      = fired_pairs iter action_rule.(action_label) match_message
          action_rules
    ∧ count_occ ActionRule_eq_dec recorded action_rule
      = length (satisfying_signals iter action_rule match_message)
        * count_occ ActionRule_eq_dec action_rules action_rule
    ∧ 2 ≤ count_occ ActionRule_eq_dec recorded action_rule.
Proof.
  intros Hin Hsat.
  pose proof (count_fired_pairs iter action_rule match_message action_rules)
    as Hcount.
  assert (1 ≤ count_occ ActionRule_eq_dec action_rules action_rule) as Hocc.
  { apply list_elem_of_In in Hin.
    apply (count_occ_In ActionRule_eq_dec) in Hin. lia. }
  exists (fired_pairs iter (action_label action_rule) match_message
            action_rules).
  rewrite get_get_actions_to_take.
  destruct (fired_pairs iter _ match_message action_rules) as [| r0 rest]
    eqn:Hfired.
  - simpl in Hcount. nia.
  - repeat split; [exact Hcount | nia].
Qed.

(** C10: every entry of the returned map holds a non-empty list of rules,
    and each rule in the list stored under a label has that label as its
    action label. *)
Theorem get_actions_to_take_entries (match_message : MatchMessage)
    (action_rules : list ActionRule) (l : ActionLabel)
    (recorded : list ActionRule) :
  (l, recorded) ∈ get_actions_to_take iter match_message action_rules →
  recorded ≠ []
  ∧ Forall (λ action_rule, action_rule.(action_label) = l) recorded.
Proof.
  intros Hentry. apply entry_get in Hentry;
    [| apply NoDup_keys_triggered].
  rewrite get_get_actions_to_take in Hentry.
  destruct (fired_pairs iter l match_message action_rules) as [| r0 rest]
    eqn:Hfired; [discriminate |].
  injection Hentry as <-. split; [done |].
  simpl. rewrite <- Hfired. apply Forall_forall. intros r Hr.
  unfold fired_pairs in Hr. apply list_elem_of_In, in_flat_map in Hr.
  destruct Hr as (s & _ & Hr).
  by apply list_elem_of_In, fired_on_label in Hr.
Qed.
End Invariants.

(** ** Independence from the iteration order of sets *)
Section Determinism.
Import Evaluator.

Variables iter1 iter2 : gset Label → list Label.
Hypothesis iter1_perm : ∀ X, iter1 X ≡ₚ elements X.
Hypothesis iter2_perm : ∀ X, iter2 X ≡ₚ elements X.

Lemma applies_order_irrelevant action_rule classifications :
  action_rule_applies_to_classifications iter1 action_rule classifications
  = action_rule_applies_to_classifications iter2 action_rule classifications.
Proof.
  unfold action_rule_applies_to_classifications. f_equal.
  - apply eq_true_iff_eq. by rewrite !issubset_spec.
  - apply eq_true_iff_eq. by rewrite !isdisjoint_spec.
Qed.

(** C9: two evaluations of the same message against the same rules return
    the same map, whatever order the sets are walked in by each of them:
    the result is a function of the message and the rules alone. *)
Theorem get_actions_to_take_deterministic (match_message : MatchMessage)
    (action_rules : list ActionRule) :
  get_actions_to_take iter1 match_message action_rules
  = get_actions_to_take iter2 match_message action_rules.
Proof.
  unfold get_actions_to_take, remove_superseded_actions,
    triggered_action_rules.
  generalize (@nil (string * list ActionRule)).
  induction (matching_banked_signals match_message) as [| s signals IH];
    intros d; [done |].
  simpl. rewrite <- IH. f_equal. unfold evaluate_banked_signal.
  clear IH. revert d.
  induction action_rules as [| r rules IHr]; intros d; [done |].
  simpl. by rewrite IHr, applies_order_irrelevant.
Qed.
End Determinism.

(** ** Supersession *)
Section Supersession.
Import Evaluator.

Lemma remove_superseded_actions_id d : remove_superseded_actions d = d.
Proof. reflexivity. Qed.

(** C7: the map returned by [remove_superseded_actions] is a subset of its
    argument: each returned entry is an entry of the argument, label and
    rule list unchanged; and an entry whose label has no [Action] in the
    catalog is never removed, whatever the catalog. *)
Theorem remove_superseded_actions_subset
    (d : PyDict.t (list ActionRule)) (actions : list Action) :
  (∀ l rules, (l, rules) ∈ remove_superseded_actions d → (l, rules) ∈ d)
  ∧ (∀ l rules, (l, rules) ∈ d → l ∉ act_label <$> actions →
       (l, rules) ∈ remove_superseded_actions d)
  ∧ (∀ l rules, PyDict.get l (remove_superseded_actions d) = Some rules →
       PyDict.get l d = Some rules).
Proof. rewrite remove_superseded_actions_id. auto. Qed.

(** C3, at the claim's input: with [A] and [B] both triggered and the
    catalog [actions_A_B], resolution as the spec describes it leaves [A]
    alone, but the map returned by [remove_superseded_actions] still
    holds [B]. *)
Theorem superseded_action_not_removed :
  PyDict.keys (resolve_per_spec actions_A_B triggered_A_B) = ["A"%string]
  ∧ PyDict.keys (remove_superseded_actions triggered_A_B)
    = ["A"; "B"]%string.
Proof. split; reflexivity. Qed.
End Supersession.

(** ** The handler *)

Section HandlerFacts.
Import Evaluator.

Variable iter : gset Label → list Label.
Variable json_loads_Message : string → Exn + string.
Variable MatchMessage_from_aws_json : string → Exn + MatchMessage.
Variable ActionRule_get_all : list SentMessage → Exn + list ActionRule.
Variable sqs_client_send_message :
  list SentMessage → SentMessage → option Exn.

Local Abbreviation decoded :=
  (decode json_loads_Message MatchMessage_from_aws_json).
Local Abbreviation sends := (send_all sqs_client_send_message).
Local Abbreviation process :=
  (process_record iter json_loads_Message MatchMessage_from_aws_json
     ActionRule_get_all sqs_client_send_message).
Local Abbreviation handle :=
  (lambda_handler iter json_loads_Message MatchMessage_from_aws_json
     ActionRule_get_all sqs_client_send_message).

Lemma for_each_app {S A} (xs ys : list A) (f : A → Eff.M S unit) s :
  Eff.for_each (xs ++ ys) f s
  = match Eff.for_each xs f s with
    | (inr _, s') => Eff.for_each ys f s'
    | (inl e, s') => (inl e, s')
    end.
Proof.
  revert s. induction xs as [| x xs IH]; intros s; simpl; [done |].
  unfold Eff.bind. destruct (f x s) as [[e | []] s']; [done |]. apply IH.
Qed.

Lemma send_action_messages config match_message d entries sent :
  (∀ l rules, (l, rules) ∈ entries → PyDict.get l d = Some rules) →
  Eff.for_each (PyDict.keys entries)
    (λ action_label,
       match PyDict.get action_label d with
       | None => Eff.raise (KeyError action_label)
       | Some rules =>
           send_message sqs_client_send_message config.(actions_queue_url)
             (ActionMessage_to_aws_json
                (mkActionMessage match_message action_label rules))
       end) sent
  = sends
      (map (λ entry,
              mkSentMessage config.(actions_queue_url)
                (ActionMessage_to_aws_json
                   (mkActionMessage match_message entry.1 entry.2)))
         entries)
      sent.
Proof.
  unfold send_all. revert sent.
  induction entries as [| [l rules] entries IH]; intros sent Hget; simpl;
    [done |].
  unfold Eff.bind. rewrite (Hget l rules) by left. simpl.
  destruct (send_message _ _ _ sent) as [[e | []] sent']; [done |].
  apply IH. intros l' rules' Hin. apply Hget. by right.
Qed.

(** the loop body, step by step: decode the record, read the rules, hand
    the messages of the record to the queues *)
Lemma process_record_plan config sqs_record sent :
  process config sqs_record sent
  = match decoded sqs_record with
    | inl e => (inl e, sent)
    | inr match_message =>
        match ActionRule_get_all sent with
        | inl e => (inl e, sent)
        | inr action_rules =>
            sends (emitted iter action_rules config match_message) sent
        end
    end.
Proof.
  unfold decode, process_record, get_action_rules.
  unfold mbind, Eff_bind, Eff.bind, Eff.lift.
  destruct (json_loads_Message (body sqs_record)) as [e | message];
    [done |].
  simpl.
  destruct (MatchMessage_from_aws_json message) as [e | match_message];
    [done |].
  simpl. destruct (ActionRule_get_all sent) as [e | action_rules]; [done |].
  rewrite (send_action_messages config match_message _
             (get_actions_to_take iter match_message action_rules)).
  - unfold emitted, send_all. rewrite for_each_app.
    destruct (Eff.for_each _ _ sent) as [[e | []] sent']; [done |].
    simpl. unfold Eff.bind.
    by destruct (send_message _ _ _ sent') as [[e | []] sent''].
  - intros l rules Hin. apply entry_get; [| done].
    apply NoDup_keys_triggered.
Qed.

Lemma send_message_whole message sent :
  send_message sqs_client_send_message message.(QueueUrl)
    message.(MessageBody) sent
  = match sqs_client_send_message sent message with
    | Some e => (inl e, sent)
    | None => (inr tt, sent ++ [message])
    end.
Proof. by destruct message. Qed.

Lemma sends_cons message messages sent :
  sends (message :: messages) sent
  = match sqs_client_send_message sent message with
    | Some e => (inl e, sent)
    | None => sends messages (sent ++ [message])
    end.
Proof.
  unfold send_all. cbn [Eff.for_each]. unfold Eff.bind.
  rewrite send_message_whole.
  by destruct (sqs_client_send_message sent message).
Qed.

Lemma sends_accepted messages sent :
  (∀ log message, sqs_client_send_message log message = None) →
  sends messages sent = (inr tt, sent ++ messages).
Proof.
  intros Haccepts. revert sent.
  induction messages as [| message messages IH]; intros sent.
  - by rewrite app_nil_r.
  - rewrite sends_cons, Haccepts, IH. by rewrite <- app_assoc.
Qed.

(** what reaches the queues is a first part of what is handed to them *)
Lemma sends_prefix messages sent :
  ∃ new, (sends messages sent).2 = sent ++ new ∧ new `prefix_of` messages.
Proof.
  revert sent. induction messages as [| message messages IH]; intros sent.
  - exists []. by rewrite app_nil_r.
  - rewrite sends_cons.
    destruct (sqs_client_send_message sent message) as [e |].
    + exists []. split; [by rewrite app_nil_r | apply prefix_nil].
    + destruct (IH (sent ++ [message])) as (new & Hnew & Hprefix).
      exists (message :: new). split.
      * rewrite Hnew. by rewrite <- app_assoc.
      * by apply prefix_cons.
Qed.

Lemma process_record_raises config sqs_record e sent :
  decoded sqs_record = inl e →
  process config sqs_record sent = (inl e, sent).
Proof. intros Hdec. by rewrite process_record_plan, Hdec. Qed.

Lemma process_record_ok config sqs_record match_message action_rules sent :
  (∀ log message, sqs_client_send_message log message = None) →
  decoded sqs_record = inr match_message →
  ActionRule_get_all sent = inr action_rules →
  process config sqs_record sent
  = (inr tt, sent ++ emitted iter action_rules config match_message).
Proof.
  intros Haccepts Hdec Hrules.
  by rewrite process_record_plan, Hdec, Hrules, sends_accepted.
Qed.

(** the messages a record adds are a first part of its messages, for the
    rules read when the record is reached *)
Lemma process_record_sent config sqs_record sent :
  ∃ new,
    (process config sqs_record sent).2 = sent ++ new
    ∧ (new = []
       ∨ ∃ match_message action_rules,
           decoded sqs_record = inr match_message
           ∧ ActionRule_get_all sent = inr action_rules
           ∧ new `prefix_of` emitted iter action_rules config match_message).
Proof.
  rewrite process_record_plan.
  destruct (decoded sqs_record) as [e | match_message] eqn:Hdec.
  - exists []. split; [by rewrite app_nil_r | by left].
  - destruct (ActionRule_get_all sent) as [e | action_rules] eqn:Hrules.
    + exists []. split; [by rewrite app_nil_r | by left].
    + destruct (sends_prefix (emitted iter action_rules config match_message)
                  sent) as (new & Hnew & Hprefix).
      exists new. split; [done |]. right. by exists match_message, action_rules.
Qed.



End HandlerFacts.

(** ** The performers *)

Section PerformerFacts.
Import Performer.

Variable respond : HttpRequest → Exn + Response.
Variable json_dumps_to_aws : MatchMessage → string.

(** C5, as amended: a POST or PUT performer makes its request and hands an
    exception raised by the call on to its caller unchanged; when the call
    returns a response, [perform_action] returns [None] whatever the status
    of the response. *)
Theorem perform_action_post_put (self : ActionPerformer)
    (match_message : MatchMessage) (sent : list HttpRequest) :
  sends_body self = true →
  perform_action respond json_dumps_to_aws self match_message sent
  = (match respond (webhook_request json_dumps_to_aws self match_message) with
     | inl e => inl e
     | inr _ => inr tt
     end,
     sent ++ [webhook_request json_dumps_to_aws self match_message]).
Proof.
  intros Hbody. destruct self as [n u | n u | n u | n u];
    try discriminate Hbody;
    unfold perform_action, webhook_request, mbind, Eff_bind, Eff.bind;
    simpl; unfold post, put, request; simpl;
    by destruct (respond _).
Qed.

(** C8, at the failing inputs: [perform_action] of a GET or DELETE performer
    raises [TypeError] on binding the keyword [data] and makes no HTTP
    call. *)
Theorem perform_action_get_delete_type_error (name url : string)
    (match_message : MatchMessage) (sent : list HttpRequest) :
  perform_action respond json_dumps_to_aws
    (WebhookGetActionPerformer name url) match_message sent
  = (inl (TypeError "call() got an unexpected keyword argument 'data'"), sent)
  ∧ perform_action respond json_dumps_to_aws
      (WebhookDeleteActionPerformer name url) match_message sent
    = (inl (TypeError "call() got an unexpected keyword argument 'data'"),
       sent).
Proof. split; reflexivity. Qed.
End PerformerFacts.

(** * Concrete runs *)

Section Runs.
Import Evaluator Performer.

Lemma elements_perm (X : gset Label) : elements X ≡ₚ elements X.
Proof. reflexivity. Qed.

Lemma elements_rev_perm (X : gset Label) : elements_rev X ≡ₚ elements X.
Proof. apply reverse_Permutation. Qed.

Example applies_C1_C2 :
  action_rule_applies_to_classifications elements rule_C1_not_C3
    {["C1"; "C2"]} = true.
Proof. reflexivity. Qed.

Example applies_not_C1_C3 :
  action_rule_applies_to_classifications elements rule_C1_not_C3
    {["C1"; "C3"]} = false.
Proof. reflexivity. Qed.

Lemma action_rule_applies_iff_witness :
  action_rule_applies_to_classifications elements rule_C1_not_C3
    {["C1"; "C2"]} = true
  ↔ rule_C1_not_C3.(must_have_labels) ⊆ {["C1"; "C2"]}
    ∧ rule_C1_not_C3.(must_not_have_labels) ## {["C1"; "C2"]}.
Proof.
  apply (action_rule_applies_iff elements elements_perm).
Defined.

Lemma contradictory_rule_never_applies_witness :
  action_rule_applies_to_classifications elements rule_contradictory
    {["C1"; "C2"]} = false.
Proof.
  apply (contradictory_rule_never_applies elements elements_perm).
  apply (bool_decide_unpack _). vm_compute. exact I.
Defined.

Lemma satisfied_rule_recorded_per_signal_witness :
  ∃ recorded,
    PyDict.get "EnqueueForReview"
      (get_actions_to_take elements message_two_hits [rule_C1_not_C3])
    = Some recorded
    ∧ recorded
      = fired_pairs elements "EnqueueForReview" message_two_hits
          [rule_C1_not_C3]
    ∧ count_occ ActionRule_eq_dec recorded rule_C1_not_C3
      = length (satisfying_signals elements rule_C1_not_C3 message_two_hits)
        * count_occ ActionRule_eq_dec [rule_C1_not_C3] rule_C1_not_C3
    ∧ 2 ≤ count_occ ActionRule_eq_dec recorded rule_C1_not_C3.
Proof.
  apply (satisfied_rule_recorded_per_signal elements message_two_hits
           [rule_C1_not_C3] rule_C1_not_C3).
  - left.
  - vm_compute. lia.
Defined.

Lemma get_actions_to_take_entries_witness :
  [rule_C1_not_C3; rule_C1_not_C3] ≠ []
  ∧ Forall (λ action_rule, action_rule.(action_label) = "EnqueueForReview")
      [rule_C1_not_C3; rule_C1_not_C3].
Proof.
  apply (get_actions_to_take_entries elements message_two_hits
           [rule_C1_not_C3]).
  assert (get_actions_to_take elements message_two_hits [rule_C1_not_C3]
          = [("EnqueueForReview", [rule_C1_not_C3; rule_C1_not_C3])]) as ->
    by reflexivity.
  left.
Defined.

Lemma get_actions_to_take_deterministic_witness :
  get_actions_to_take elements message_two_hits
    [rule_C1_not_C3; rule_contradictory]
  = get_actions_to_take elements_rev message_two_hits
      [rule_C1_not_C3; rule_contradictory].
Proof.
  apply (get_actions_to_take_deterministic elements elements_rev
           elements_perm elements_rev_perm).
Defined.

(** the batch of three, run with a repository and queues that never fail:
    the first record is processed, the second raises, nothing is sent for
    the third *)
Example lambda_handler_batch_of_three :
  lambda_handler elements toy_json_loads_Message toy_from_aws_json
    (store_holds [rule_C1_not_C3]) queue_accepts toy_config batch_of_three []
  = (inl (JSONDecodeError "Expecting value"),
     [ mkSentMessage "actions-queue"
         (ActionMessage_to_aws_json
            (mkActionMessage (mkMatchMessage "first" "hash" [signal_C1])
               "EnqueueForReview" [rule_C1_not_C3]));
       mkSentMessage "reactions-queue"
         (ReactionMessage_to_aws_json
            (mkReactionMessage (mkMatchMessage "first" "hash" [signal_C1])
               "SAW_THIS_TOO")) ]).
Proof. reflexivity. Qed.



(** a response with status 500 leaves no trace in what [perform_action]
    returns *)
Example perform_action_status_500 :
  perform_action respond_500 toy_json_dumps_to_aws notify message_two_hits []
  = (inr tt,
     [ mkHttpRequest POST "https://example.test/hook"
         (Some "MatchMessage key hash") ]).
Proof. reflexivity. Qed.

(** C5, as stated, fails for a POST performer whose endpoint answers 500:
    the request went wrong and [perform_action] returns normally. *)
Lemma non_success_response_not_surfaced :
  ¬ dispatch_failure_surfaced respond_500 toy_json_dumps_to_aws notify
      message_two_hits.
Proof.
  intros Hsurfaced.
  destruct (Hsurfaced
              (mkHttpRequest POST "https://example.test/hook"
                 (Some "MatchMessage key hash"))) as [e He].
  - rewrite perform_action_status_500. simpl. left.
  - reflexivity.
  - rewrite perform_action_status_500 in He. discriminate He.
Qed.

Lemma perform_action_post_put_witness :
  perform_action respond_unreachable toy_json_dumps_to_aws notify
    message_two_hits []
  = (inl (RequestException "connection refused"),
     [ mkHttpRequest POST "https://example.test/hook"
         (Some "MatchMessage key hash") ]).
Proof.
  exact (perform_action_post_put respond_unreachable toy_json_dumps_to_aws
           notify message_two_hits [] eq_refl).
Defined.

(** the [__main__] block of [actioner_models.py] calls a DELETE performer
    first: the call raises before any request is made *)
Example perform_action_main_block :
  perform_action respond_500 toy_json_dumps_to_aws
    (WebhookDeleteActionPerformer "DeleteWebhook"
       "https://webhook.site/ff7ebc37-514a-439e-9a03-46f86989e195")
    message_two_hits []
  = (inl (TypeError "call() got an unexpected keyword argument 'data'"), []).
Proof. reflexivity. Qed.
End Runs.

(** * Further properties *)

(** ** Rule matching at the edges *)
Section RuleMatchingEdges.
Import Evaluator.

Variable iter : gset Label → list Label.
Hypothesis iter_perm : ∀ X, iter X ≡ₚ elements X.

Lemma applies_spec action_rule classifications :
  action_rule_applies_to_classifications iter action_rule classifications
    = true
  ↔ action_rule.(must_have_labels) ⊆ classifications
    ∧ action_rule.(must_not_have_labels) ## classifications.
Proof.
  unfold action_rule_applies_to_classifications.
  by rewrite andb_true_iff, (issubset_spec iter iter_perm),
    (isdisjoint_spec iter iter_perm).
Qed.

(** X1: on a signal without classifications a rule applies exactly when it
    requires no label; its forbidden labels play no part. *)
Theorem applies_to_no_classifications (action_rule : ActionRule) :
  action_rule_applies_to_classifications iter action_rule ∅ = true
  ↔ action_rule.(must_have_labels) = ∅.
Proof.
  rewrite applies_spec. split.
  - intros [Hsub _]. apply set_eq. intros x. split; [apply Hsub | set_solver].
  - intros ->. split; set_solver.
Qed.

(** X2: a rule that requires nothing and forbids nothing applies to every
    set of classifications. *)
Theorem unconstrained_rule_always_applies (action_rule : ActionRule)
    (classifications : gset Label) :
  action_rule.(must_have_labels) = ∅ →
  action_rule.(must_not_have_labels) = ∅ →
  action_rule_applies_to_classifications iter action_rule classifications
    = true.
Proof.
  intros Hhave Hnot. apply applies_spec. rewrite Hhave, Hnot.
  split; set_solver.
Qed.

(** X3: a rule that applies keeps applying when labels are added to the
    classifications, as long as none of the added labels is forbidden by
    the rule. *)
Theorem applies_after_adding_labels (action_rule : ActionRule)
    (classifications added : gset Label) :
  action_rule_applies_to_classifications iter action_rule classifications
    = true →
  action_rule.(must_not_have_labels) ## added →
  action_rule_applies_to_classifications iter action_rule
    (classifications ∪ added) = true.
Proof.
  rewrite !applies_spec. intros [Hsub Hdisj] Hadded. split.
  - intros l Hl. apply elem_of_union. left. by apply Hsub.
  - intros l Hl [Hin | Hin]%elem_of_union.
    + by apply (Hdisj l).
    + by apply (Hadded l).
Qed.

(** X4: a rule fails to apply exactly when a required label is missing from
    the classifications or a forbidden label is among them. *)
Theorem not_applies_iff (action_rule : ActionRule)
    (classifications : gset Label) :
  action_rule_applies_to_classifications iter action_rule classifications
    = false
  ↔ (∃ l, l ∈ action_rule.(must_have_labels) ∧ l ∉ classifications)
    ∨ (∃ l, l ∈ action_rule.(must_not_have_labels) ∧ l ∈ classifications).
Proof.
  rewrite <- not_true_iff_false, applies_spec. split.
  - intros Hnot.
    destruct (decide (must_have_labels action_rule ⊆ classifications))
      as [Hsub | Hsub].
    + right.
      destruct (decide (must_not_have_labels action_rule ∩ classifications
                        = ∅)) as [Hempty | Hne].
      * exfalso. apply Hnot. split; [done | set_solver].
      * apply set_choose_L in Hne as [l Hl]. exists l. set_solver.
    + left.
      destruct (decide (must_have_labels action_rule ∖ classifications = ∅))
        as [Hempty | Hne].
      * exfalso. apply Hsub. intros l Hl.
        destruct (decide (l ∈ classifications)); [done |]. set_solver.
      * apply set_choose_L in Hne as [l Hl]. exists l. set_solver.
  - intros [[l [Hl Hmiss]] | [l [Hl Hin]]] [Hsub Hdisj]; set_solver.
Qed.
End RuleMatchingEdges.

(** ** The returned map as a whole *)
Section EvaluationFacts.
Import Evaluator.

Variable iter : gset Label → list Label.

Lemma elem_fired_pairs l match_message action_rules r :
  r ∈ fired_pairs iter l match_message action_rules
  ↔ ∃ banked_signal,
      banked_signal ∈ match_message.(matching_banked_signals)
      ∧ r ∈ action_rules
      ∧ r.(action_label) = l
      ∧ action_rule_applies_to_classifications iter r
          banked_signal.(classifications) = true.
Proof.
  unfold fired_pairs, fired_on.
  rewrite list_elem_of_In, in_flat_map. split.
  - intros (s & Hs & Hr). apply filter_In in Hr as [Hr Hcond].
    apply andb_true_iff in Hcond as [Happ Hl].
    apply bool_decide_eq_true in Hl. exists s.
    by rewrite !list_elem_of_In.
  - intros (s & Hs & Hr & Hl & Happ). exists s.
    rewrite filter_In, <- !list_elem_of_In, Happ.
    by rewrite bool_decide_eq_true_2.
Qed.

Lemma get_all_None {V} (d : PyDict.t V) :
  (∀ l, PyDict.get l d = None) → d = [].
Proof.
  destruct d as [| [k v] d]; [done |]. intros Hnone.
  specialize (Hnone k). simpl in Hnone.
  by destruct (decide (k = k)).
Qed.

Lemma no_pair_applies_empty match_message action_rules :
  (∀ banked_signal action_rule,
     banked_signal ∈ match_message.(matching_banked_signals) →
     action_rule ∈ action_rules →
     action_rule_applies_to_classifications iter action_rule
       banked_signal.(classifications) = false) →
  get_actions_to_take iter match_message action_rules = [].
Proof.
  intros Hnone. apply get_all_None. intros l.
  rewrite get_get_actions_to_take.
  destruct (fired_pairs iter l match_message action_rules) as [| r rest]
    eqn:Hfired; [done |].
  assert (r ∈ fired_pairs iter l match_message action_rules) as Hr
    by (rewrite Hfired; left).
  apply elem_fired_pairs in Hr as (s & Hs & Hr & _ & Happ).
  by rewrite (Hnone s r Hs Hr) in Happ.
Qed.

(** X5: a label is a key of the returned map exactly when some rule with
    that action label applies to some signal of the message. *)
Theorem triggered_label_iff (match_message : MatchMessage)
    (action_rules : list ActionRule) (l : ActionLabel) :
  l ∈ PyDict.keys (get_actions_to_take iter match_message action_rules)
  ↔ ∃ banked_signal action_rule,
      banked_signal ∈ match_message.(matching_banked_signals)
      ∧ action_rule ∈ action_rules
      ∧ action_rule.(action_label) = l
      ∧ action_rule_applies_to_classifications iter action_rule
          banked_signal.(classifications) = true.
Proof.
  rewrite keys_get, get_get_actions_to_take. split.
  - intros [recorded Hrec].
    destruct (fired_pairs iter l match_message action_rules) as [| r rest]
      eqn:Hfired; [discriminate |].
    assert (r ∈ fired_pairs iter l match_message action_rules) as Hr
      by (rewrite Hfired; left).
    apply elem_fired_pairs in Hr as (s & Hr). by exists s, r.
  - intros (s & r & Hr).
    assert (r ∈ fired_pairs iter l match_message action_rules) as Hin
      by (apply elem_fired_pairs; by exists s).
    destruct (fired_pairs iter l match_message action_rules);
      [by apply elem_of_nil in Hin | by eexists].
Qed.

(** X6: the returned map is empty exactly when no rule applies to any
    signal; so it is for a message without signals and for an empty rule
    list. *)
Theorem get_actions_to_take_empty_iff (match_message : MatchMessage)
    (action_rules : list ActionRule) :
  get_actions_to_take iter match_message action_rules = []
  ↔ ∀ banked_signal action_rule,
      banked_signal ∈ match_message.(matching_banked_signals) →
      action_rule ∈ action_rules →
      action_rule_applies_to_classifications iter action_rule
        banked_signal.(classifications) = false.
Proof.
  split; [| apply no_pair_applies_empty].
  intros Hempty s r Hs Hr. apply not_true_iff_false. intros Happ.
  assert (r ∈ fired_pairs iter (action_label r) match_message action_rules)
    as Hin by (apply elem_fired_pairs; by exists s).
  pose proof (get_get_actions_to_take iter (action_label r) match_message
                action_rules) as Hget.
  rewrite Hempty in Hget. simpl in Hget.
  destruct (fired_pairs iter _ match_message action_rules);
    [by apply elem_of_nil in Hin | discriminate].
Qed.

(** X7: the rules stored for a message are, label by label, those stored
    for its first signals followed by those stored for its remaining
    signals. *)
Theorem rules_under_signals_app (content_key content_hash : string)
    (signals1 signals2 : list BankedSignal)
    (action_rules : list ActionRule) (l : ActionLabel) :
  rules_under l
    (get_actions_to_take iter
       (mkMatchMessage content_key content_hash (signals1 ++ signals2))
       action_rules)
  = rules_under l
      (get_actions_to_take iter
         (mkMatchMessage content_key content_hash signals1) action_rules)
    ++ rules_under l
         (get_actions_to_take iter
            (mkMatchMessage content_key content_hash signals2) action_rules).
Proof.
  unfold rules_under. rewrite !get_get_actions_to_take.
  unfold fired_pairs. simpl. rewrite flat_map_app.
  assert (∀ xs, default [] (extend None xs) = xs) as Hdef
    by (by intros [| x xs]).
  by rewrite !Hdef.
Qed.
End EvaluationFacts.

(** ** The two loops as one pass over the applying rules *)
Section EvaluationOrder.
Import Evaluator.

Variable iter : gset Label → list Label.

Lemma evaluate_banked_signal_filter action_rules d banked_signal :
  evaluate_banked_signal iter action_rules d banked_signal
  = fold_left record_action_rule
      (List.filter
         (λ action_rule,
            action_rule_applies_to_classifications iter action_rule
              banked_signal.(classifications))
         action_rules)
      d.
Proof.
  unfold evaluate_banked_signal. revert d.
  induction action_rules as [| r rules IH]; intros d; [done |].
  simpl. rewrite IH.
  by destruct (action_rule_applies_to_classifications iter r _).
Qed.

Lemma get_actions_to_take_fold match_message action_rules :
  get_actions_to_take iter match_message action_rules
  = fold_left record_action_rule
      (applying_rules iter match_message action_rules) [].
Proof.
  unfold get_actions_to_take, remove_superseded_actions,
    triggered_action_rules, applying_rules.
  generalize (@nil (string * list ActionRule)).
  induction (matching_banked_signals match_message) as [| s signals IH];
    intros d; [done |].
  simpl. by rewrite fold_left_app, IH, evaluate_banked_signal_filter.
Qed.

Lemma contains_keys {V} k (d : PyDict.t V) :
  PyDict.contains k d = true ↔ k ∈ PyDict.keys d.
Proof.
  rewrite keys_get. unfold PyDict.contains.
  destruct (PyDict.get k d) as [v |].
  - split; [by eexists | done].
  - split; [done | by intros [? ?]].
Qed.

Lemma keys_record_action_rule d action_rule :
  PyDict.keys (record_action_rule d action_rule)
  = if decide (action_rule.(action_label) ∈ PyDict.keys d)
    then PyDict.keys d
    else PyDict.keys d ++ [action_rule.(action_label)].
Proof.
  unfold record_action_rule, PyDict.set.
  destruct (PyDict.contains _ d) eqn:Hin.
  - apply contains_keys in Hin. rewrite keys_update.
    by destruct (decide _).
  - assert (action_label action_rule ∉ PyDict.keys d) as Hout
      by (rewrite <- contains_keys, Hin; discriminate).
    destruct (decide _); [done |].
    unfold PyDict.keys. by rewrite fmap_app.
Qed.

Lemma recorded_total_update k r (d : PyDict.t (list ActionRule)) :
  k ∈ PyDict.keys d →
  recorded_total (PyDict.update k (λ rules, rules ++ [r]) d)
  = S (recorded_total d).
Proof.
  unfold recorded_total, PyDict.keys.
  induction d as [| [k' rules] d IH]; csimpl.
  - by intros ?%elem_of_nil.
  - intros Hin. destruct (decide (k = k')) as [-> | Hne]; csimpl.
    + rewrite length_app. simpl. lia.
    + apply elem_of_cons in Hin as [? | Hin]; [done |].
      rewrite (IH Hin). lia.
Qed.

Lemma recorded_total_record_action_rule d action_rule :
  recorded_total (record_action_rule d action_rule) = S (recorded_total d).
Proof.
  unfold record_action_rule, PyDict.set.
  destruct (PyDict.contains _ d) eqn:Hin.
  - apply recorded_total_update. by apply contains_keys.
  - unfold recorded_total. rewrite !fmap_app, sum_list_with_app. simpl. lia.
Qed.

(** X8: the map holds as many rules, all labels together, as there are
    pairs of a signal and a rule in which the rule applies: each such pair
    is recorded once and nothing else is. *)
Theorem recorded_total_applying_pairs (match_message : MatchMessage)
    (action_rules : list ActionRule) :
  recorded_total (get_actions_to_take iter match_message action_rules)
  = length (applying_rules iter match_message action_rules).
Proof.
  rewrite get_actions_to_take_fold.
  assert (∀ xs d,
    recorded_total (fold_left record_action_rule xs d)
    = recorded_total d + length xs) as Hgen.
  { induction xs as [| r xs IH]; intros d; simpl; [lia |].
    rewrite IH, recorded_total_record_action_rule. lia. }
  by rewrite Hgen.
Qed.

Lemma keys_fold_record xs (d : PyDict.t (list ActionRule)) :
  PyDict.keys (fold_left record_action_rule xs d)
  = PyDict.keys d
    ++ filter (λ l, l ∉ PyDict.keys d)
         (first_occurrences (action_label <$> xs)).
Proof.
  revert d. induction xs as [| r xs IH]; intros d.
  - simpl. by rewrite filter_nil, app_nil_r.
  - cbn [fold_left fmap list_fmap first_occurrences].
    rewrite IH, keys_record_action_rule.
    destruct (decide (action_label r ∈ PyDict.keys d)) as [Hin | Hout].
    + rewrite filter_cons_False by (intros Hno; by apply Hno).
      rewrite list_filter_filter. f_equal.
      apply list_filter_iff. intros l. split; [| tauto].
      intros Hl. split; [done |]. by intros ->.
    + rewrite filter_cons_True by done.
      rewrite list_filter_filter, <- app_assoc. simpl. do 2 f_equal.
      apply list_filter_iff. intros l.
      rewrite not_elem_of_app, list_elem_of_singleton. tauto.
Qed.

Lemma filter_all {A} (P : A → Prop) `{∀ x, Decision (P x)} (l : list A) :
  (∀ x, P x) → filter P l = l.
Proof.
  intros HP. induction l as [| x l IH]; [done |].
  rewrite filter_cons_True by apply HP. by rewrite IH.
Qed.

(** X9: the keys of the returned map are the action labels of the applying
    rules, each once, in the order in which the two loops first meet
    them. *)
Theorem keys_in_first_firing_order (match_message : MatchMessage)
    (action_rules : list ActionRule) :
  PyDict.keys (get_actions_to_take iter match_message action_rules)
  = first_occurrences
      (action_label <$> applying_rules iter match_message action_rules).
Proof.
  rewrite get_actions_to_take_fold, keys_fold_record. simpl.
  apply filter_all. intros l. apply not_elem_of_nil.
Qed.
End EvaluationOrder.

(** ** A batch, run to its end or to its first failure *)
Section BatchFacts.
Import Evaluator.

Variable iter : gset Label → list Label.
Variable json_loads_Message : string → Exn + string.
Variable MatchMessage_from_aws_json : string → Exn + MatchMessage.
Variable ActionRule_get_all : list SentMessage → Exn + list ActionRule.
Variable sqs_client_send_message :
  list SentMessage → SentMessage → option Exn.

Local Abbreviation decoded :=
  (decode json_loads_Message MatchMessage_from_aws_json).
Local Abbreviation prefix :=
  (decoded_prefix json_loads_Message MatchMessage_from_aws_json).
Local Abbreviation failure :=
  (first_failure json_loads_Message MatchMessage_from_aws_json).
Local Abbreviation process :=
  (process_record iter json_loads_Message MatchMessage_from_aws_json
     ActionRule_get_all sqs_client_send_message).
Local Abbreviation handle :=
  (lambda_handler iter json_loads_Message MatchMessage_from_aws_json
     ActionRule_get_all sqs_client_send_message).

Lemma for_each_run config Records action_rules sent :
  (∀ log, ActionRule_get_all log = inr action_rules) →
  (∀ log message, sqs_client_send_message log message = None) →
  Eff.for_each Records (process config) sent
  = (match failure Records with Some e => inl e | None => inr tt end,
     sent ++ flat_map (emitted iter action_rules config) (prefix Records)).
Proof.
  intros Hrules Haccepts. revert sent.
  induction Records as [| r Records IH]; intros sent; simpl.
  - by rewrite app_nil_r.
  - unfold Eff.bind. destruct (decoded r) as [e | m] eqn:Hdec.
    + rewrite (process_record_raises _ _ _ _ _ _ _ _ _ Hdec). simpl.
      by rewrite app_nil_r.
    + rewrite (process_record_ok _ _ _ _ _ _ _ _ _ _ Haccepts Hdec
                 (Hrules sent)), IH.
      simpl. by rewrite app_assoc.
Qed.

Lemma handle_snd config Records sent :
  (handle config Records sent).2
  = (Eff.for_each Records (process config) sent).2.
Proof.
  unfold lambda_handler, mbind, Eff_bind, Eff.bind.
  by destruct (Eff.for_each Records _ sent) as [[e | []] sent'].
Qed.

(** every message an invocation adds is one of the messages of a record of
    the batch that decodes, for rules read during the invocation *)
Lemma handle_sent_stems config Records sent message :
  message ∈ (handle config Records sent).2 →
  message ∈ sent
  ∨ ∃ sqs_record match_message log action_rules,
      sqs_record ∈ Records
      ∧ decoded sqs_record = inr match_message
      ∧ ActionRule_get_all log = inr action_rules
      ∧ message ∈ emitted iter action_rules config match_message.
Proof.
  rewrite handle_snd. revert sent.
  induction Records as [| r Records IH]; intros sent; simpl; [by left |].
  unfold Eff.bind.
  destruct (process_record_sent iter json_loads_Message
              MatchMessage_from_aws_json ActionRule_get_all
              sqs_client_send_message config r sent)
    as (new & Hnew & Hstems).
  assert (message ∈ sent ++ new →
          message ∈ sent
          ∨ ∃ sqs_record match_message log action_rules,
              sqs_record ∈ r :: Records
              ∧ decoded sqs_record = inr match_message
              ∧ ActionRule_get_all log = inr action_rules
              ∧ message ∈ emitted iter action_rules config match_message)
    as Hhere.
  { intros [Hin | Hin]%elem_of_app; [by left |]. right.
    destruct Hstems as [-> | (m & rules & Hdec & Hrules & Hprefix)];
      [by apply elem_of_nil in Hin |].
    exists r, m, sent, rules. split; [left |]. split; [done |].
    split; [done |]. destruct Hprefix as [rest ->].
    apply elem_of_app. by left. }
  destruct (process config r sent) as [[e | []] sent'] eqn:Hrun;
    simpl in Hnew; subst sent'.
  - exact Hhere.
  - intros Hin. destruct (IH _ Hin) as [Hold | Hnew]; [by apply Hhere |].
    right. destruct Hnew as (r' & m & log & rules & Hr' & Hrest).
    exists r', m, log, rules. split; [by right | done].
Qed.

Lemma elem_prefix match_message Records :
  match_message ∈ prefix Records →
  ∃ sqs_record, sqs_record ∈ Records ∧ decoded sqs_record = inr match_message.
Proof.
  induction Records as [| r Records IH]; simpl.
  - by intros ?%elem_of_nil.
  - destruct (decoded r) as [e | m] eqn:Hdec.
    + by intros ?%elem_of_nil.
    + intros [-> | Hin]%elem_of_cons.
      * exists r. split; [left | done].
      * destruct (IH Hin) as (r' & Hr' & Hdec'). exists r'.
        split; [by right | done].
Qed.

Lemma entry_fired_pairs match_message action_rules l recorded :
  (l, recorded) ∈ get_actions_to_take iter match_message action_rules →
  recorded = fired_pairs iter l match_message action_rules
  ∧ recorded ≠ [].
Proof.
  intros Hentry. apply entry_get in Hentry; [| apply NoDup_keys_triggered].
  rewrite get_get_actions_to_take in Hentry.
  destruct (fired_pairs iter l match_message action_rules)
    as [| r0 rest]; [discriminate |].
  by injection Hentry as <-.
Qed.



(** X10: a run of [lambda_handler] on any batch, from any state of the
    queues, when the rules can be read and the queues accept every
    message.  It raises the exception of the first record that fails to
    decode, or returns the completion marker when every record decodes; it
    leaves what had been sent in place and adds, record by record, the
    messages of the records before the first failure and nothing else. *)
Theorem lambda_handler_run (config : ActionEvaluatorConfig)
    (Records : list SqsRecord) (action_rules : list ActionRule)
    (sent : list SentMessage) :
  (∀ log, ActionRule_get_all log = inr action_rules) →
  (∀ log message, sqs_client_send_message log message = None) →
  handle config Records sent
  = (match failure Records with
     | Some e => inl e
     | None => inr [("evaluation_completed", "true")]%string
     end,
     sent ++ flat_map (emitted iter action_rules config) (prefix Records)).
Proof.
  intros Hrules Haccepts.
  unfold lambda_handler, mbind, Eff_bind, Eff.bind.
  rewrite (for_each_run _ _ _ _ Hrules Haccepts).
  by destruct (failure Records).
Qed.

(** X11: handling a batch made of two parts is handling the first part
    and, when that returns, handling the second part from where the first
    left the queues; when the first part raises, the second is not
    touched. *)
Theorem lambda_handler_batches_compose (config : ActionEvaluatorConfig)
    (Records1 Records2 : list SqsRecord) (sent : list SentMessage) :
  handle config (Records1 ++ Records2) sent
  = match handle config Records1 sent with
    | (inr _, sent') => handle config Records2 sent'
    | (inl e, sent') => (inl e, sent')
    end.
Proof.
  unfold lambda_handler, mbind, Eff_bind, Eff.bind.
  rewrite for_each_app.
  by destruct (Eff.for_each Records1 _ sent) as [[e | []] sent'].
Qed.

(** X12: for a record that decodes, with rules that can be read and none
    of which applies to a signal of its MatchMessage, one message is handed
    to the queues: the reaction [SAW_THIS_TOO], for the reactions queue.
    When the queue accepts it, it is the one message sent for the record;
    when the call raises, the exception leaves the loop body and nothing
    is sent. *)
Theorem untriggered_record_sends_reaction (config : ActionEvaluatorConfig)
    (sqs_record : SqsRecord) (match_message : MatchMessage)
    (action_rules : list ActionRule) (sent : list SentMessage) :
  decoded sqs_record = inr match_message →
  ActionRule_get_all sent = inr action_rules →
  (∀ banked_signal action_rule,
     banked_signal ∈ match_message.(matching_banked_signals) →
     action_rule ∈ action_rules →
     action_rule_applies_to_classifications iter action_rule
       banked_signal.(classifications) = false) →
  process config sqs_record sent
  = match sqs_client_send_message sent
            (mkSentMessage config.(reactions_queue_url)
               (ReactionMessage_to_aws_json
                  (mkReactionMessage match_message "SAW_THIS_TOO"))) with
    | Some e => (inl e, sent)
    | None =>
        (inr tt,
         sent ++ [ mkSentMessage config.(reactions_queue_url)
                     (ReactionMessage_to_aws_json
                        (mkReactionMessage match_message "SAW_THIS_TOO")) ])
    end.
Proof.
  intros Hdec Hrules Hnone.
  rewrite process_record_plan, Hdec, Hrules. unfold emitted.
  rewrite (no_pair_applies_empty _ _ _ Hnone). simpl.
  rewrite sends_cons. by destruct (sqs_client_send_message sent _).
Qed.

(** X13: every message of an invocation goes to the queue of its kind: an
    ActionMessage to the actions queue, a ReactionMessage to the reactions
    queue. *)
Theorem sent_messages_routed (config : ActionEvaluatorConfig)
    (Records : list SqsRecord) (message : SentMessage) :
  message ∈ (handle config Records []).2 →
  message.(QueueUrl)
  = match message.(MessageBody) with
    | ActionMessage_to_aws_json _ => config.(actions_queue_url)
    | ReactionMessage_to_aws_json _ => config.(reactions_queue_url)
    end.
Proof.
  intros [Hin | (r & m & log & rules & _ & _ & _ & Hin)]%handle_sent_stems;
    [by apply elem_of_nil in Hin |].
  unfold emitted in Hin. apply list_elem_of_In, in_app_or in Hin.
  destruct Hin as [Hin | Hin].
  - apply in_map_iff in Hin as (entry & <- & _). done.
  - destruct Hin as [<- | []]. done.
Qed.

(** X14: every ActionMessage of an invocation stems from a record of the
    batch, and the rules it carries are a non-empty list of rules that the
    config repository returned at one read of the invocation, all with the
    action label of the message. *)
Theorem sent_action_messages_justified (config : ActionEvaluatorConfig)
    (Records : list SqsRecord) (message : SentMessage)
    (action_message : ActionMessage) :
  message ∈ (handle config Records []).2 →
  message.(MessageBody) = ActionMessage_to_aws_json action_message →
  (∃ sqs_record,
     sqs_record ∈ Records
     ∧ decoded sqs_record = inr action_message.(am_match_message))
  ∧ action_message.(am_action_rules) ≠ []
  ∧ ∃ log action_rules,
      ActionRule_get_all log = inr action_rules
      ∧ Forall
          (λ action_rule,
             action_rule ∈ action_rules
             ∧ action_rule.(action_label) = action_message.(am_action_label))
          action_message.(am_action_rules).
Proof.
  intros [Hin | (r & m & log & rules & Hr & Hdec & Hrules & Hin)]
    %handle_sent_stems Hbody; [by apply elem_of_nil in Hin |].
  unfold emitted in Hin. apply list_elem_of_In, in_app_or in Hin.
  destruct Hin as [Hin | Hin].
  - apply in_map_iff in Hin as ([l recorded] & <- & Hentry).
    simpl in Hbody. injection Hbody as <-. simpl.
    apply list_elem_of_In, entry_fired_pairs in Hentry as [-> Hne].
    split; [by exists r |]. split; [done |].
    exists log, rules. split; [done |]. apply Forall_forall. intros rule Hrule.
    by apply elem_fired_pairs in Hrule as (s & _ & Hrule & Hl & _).
  - destruct Hin as [<- | []]. discriminate Hbody.
Qed.

End BatchFacts.

(** ** Requests made by a performer *)
Section PerformerRequests.
Import Performer.

Variable respond : HttpRequest → Exn + Response.
Variable json_dumps_to_aws : MatchMessage → string.

(** X16: whatever the subtype, the message and the endpoint's behaviour,
    [perform_action] keeps the requests made before it and adds at most
    one, and that one goes to the configured URL with the HTTP method of
    the subtype. *)
Theorem perform_action_at_most_one_request (self : ActionPerformer)
    (match_message : MatchMessage) (sent : list HttpRequest) :
  ∃ new,
    (perform_action respond json_dumps_to_aws self match_message sent).2
    = sent ++ new
    ∧ length new ≤ 1
    ∧ ∀ request, request ∈ new →
        request.(http_url) = url self
        ∧ request.(http_method) = http_method_of self.
Proof.
  destruct self as [n u | n u | n u | n u].
  - exists [mkHttpRequest POST u (Some (json_dumps_to_aws match_message))].
    split; [| split; [simpl; lia |]].
    + unfold perform_action, mbind, Eff_bind, Eff.bind. simpl.
      unfold post, request. by destruct (respond _).
    + by intros request ->%list_elem_of_singleton.
  - exists []. split; [by rewrite app_nil_r |].
    split; [simpl; lia | by intros request ?%elem_of_nil].
  - exists [mkHttpRequest PUT u (Some (json_dumps_to_aws match_message))].
    split; [| split; [simpl; lia |]].
    + unfold perform_action, mbind, Eff_bind, Eff.bind. simpl.
      unfold put, request. by destruct (respond _).
    + by intros request ->%list_elem_of_singleton.
  - exists []. split; [by rewrite app_nil_r |].
    split; [simpl; lia | by intros request ?%elem_of_nil].
Qed.
End PerformerRequests.

(** ** The cached configuration *)
Section ConfigFacts.
Import Evaluator EvaluatorConfig.

(** X17: with nothing cached and the three variables set, [get] has
    [HMAConfig] initialised with the table name, once, and then creates
    the SQS client.  When that succeeds, [get] returns the two queue URLs
    of the environment and caches what it returns; when it raises, the
    exception leaves [get] and nothing is cached. *)
Theorem config_get_first_call (boto3_client_sqs : Exn + unit)
    (environ : gmap string string) (st : State)
    (table_name actions reactions : string) :
  st.(lru_cache) = None →
  environ !! "CONFIG_TABLE_NAME" = Some table_name →
  environ !! "ACTIONS_QUEUE_URL" = Some actions →
  environ !! "REACTIONS_QUEUE_URL" = Some reactions →
  get boto3_client_sqs environ st
  = match boto3_client_sqs with
    | inr _ =>
        (inr (mkActionEvaluatorConfig actions reactions),
         mkState (st.(HMAConfig_initialized) ++ [table_name])
           (Some (mkActionEvaluatorConfig actions reactions)))
    | inl e =>
        (inl e, mkState (st.(HMAConfig_initialized) ++ [table_name]) None)
    end.
Proof.
  intros Hcache Htable Hactions Hreactions.
  unfold get, get_body, mbind, Eff_bind, Eff.bind, os_environ, Eff.lift.
  rewrite Hcache, Htable. simpl. rewrite Hactions, Hreactions. simpl.
  destruct boto3_client_sqs as [e | []]; simpl; by rewrite ?Hcache.
Qed.

(** X18: once [get] has returned a configuration, every later call returns
    that same configuration and changes nothing, whatever the environment
    has become: the variables are not read again and [HMAConfig] is not
    initialised again. *)
Theorem config_get_is_cached (boto3_client_sqs boto3_client_sqs' : Exn + unit)
    (environ environ' : gmap string string)
    (st st' : State) (config : ActionEvaluatorConfig) :
  get boto3_client_sqs environ st = (inr config, st') →
  get boto3_client_sqs' environ' st' = (inr config, st').
Proof.
  unfold get. destruct (lru_cache st) as [cached |] eqn:Hcache.
  - intros [= -> <-]. by rewrite Hcache.
  - destruct (get_body boto3_client_sqs environ st)
      as [[e | config0] st0]; [discriminate |].
    by intros [= -> <-].
Qed.

(** X19: with nothing cached and a variable missing, [get] raises
    [KeyError] for the first missing variable in reading order and caches
    nothing; [HMAConfig] has been initialised by then exactly when the
    table name was set. *)
Theorem config_get_missing_variable (boto3_client_sqs : Exn + unit)
    (environ : gmap string string) (st : State) (key : string) :
  st.(lru_cache) = None →
  first_missing environ = Some key →
  get boto3_client_sqs environ st
  = (inl (KeyError key),
     mkState
       (st.(HMAConfig_initialized)
        ++ match environ !! "CONFIG_TABLE_NAME" with
           | Some table_name => [table_name]
           | None => []
           end)
       None).
Proof.
  destruct st as [initialized cache]. simpl. intros -> Hmissing.
  unfold first_missing, required_variables in Hmissing. simpl in Hmissing.
  unfold get, get_body, mbind, Eff_bind, Eff.bind, os_environ. simpl.
  destruct (environ !! "CONFIG_TABLE_NAME") as [table_name |]; simpl.
  - rewrite bool_decide_eq_false_2 in Hmissing by done.
    destruct (environ !! "ACTIONS_QUEUE_URL") as [actions |]; simpl.
    + rewrite bool_decide_eq_false_2 in Hmissing by done.
      destruct (environ !! "REACTIONS_QUEUE_URL") as [reactions |]; simpl.
      * rewrite bool_decide_eq_false_2 in Hmissing by done. discriminate.
      * rewrite bool_decide_eq_true_2 in Hmissing by done.
        by injection Hmissing as <-.
    + rewrite bool_decide_eq_true_2 in Hmissing by done.
      by injection Hmissing as <-.
  - rewrite bool_decide_eq_true_2 in Hmissing by done.
    injection Hmissing as <-. by rewrite app_nil_r.
Qed.
End ConfigFacts.

(** ** An invocation and its configuration *)
Section InvocationFacts.
Import Evaluator EvaluatorConfig Invocation.

Variable iter : gset Label → list Label.
Variable json_loads_Message : string → Exn + string.
Variable MatchMessage_from_aws_json : string → Exn + MatchMessage.
Variable ActionRule_get_all : list SentMessage → Exn + list ActionRule.
Variable sqs_client_send_message :
  list SentMessage → SentMessage → option Exn.

Local Abbreviation invoke :=
  (lambda_handler_in iter json_loads_Message MatchMessage_from_aws_json
     ActionRule_get_all sqs_client_send_message).
Local Abbreviation handle :=
  (lambda_handler iter json_loads_Message MatchMessage_from_aws_json
     ActionRule_get_all sqs_client_send_message).

(** X20: when the configuration cannot be read, the invocation raises the
    [KeyError] before it looks at any record: nothing is sent, whatever
    the batch. *)
Theorem misconfigured_invocation_sends_nothing
    (boto3_client_sqs : Exn + unit) (environ : gmap string string)
    (Records : list SqsRecord) (st : State) (sent : list SentMessage)
    (key : string) :
  st.(lru_cache) = None →
  first_missing environ = Some key →
  ∃ st',
    invoke boto3_client_sqs environ Records (st, sent)
    = (inl (KeyError key), (st', sent)).
Proof.
  intros Hcache Hmissing. unfold lambda_handler_in. simpl.
  assert (∃ st', get boto3_client_sqs environ st = (inl (KeyError key), st'))
    as [st' Hget].
  { unfold get, get_body, mbind, Eff_bind, Eff.bind, os_environ.
    rewrite Hcache. simpl.
    unfold first_missing, required_variables in Hmissing. simpl in Hmissing.
    destruct (environ !! "CONFIG_TABLE_NAME") as [table_name |]; simpl.
    - rewrite bool_decide_eq_false_2 in Hmissing by done.
      destruct (environ !! "ACTIONS_QUEUE_URL") as [actions |]; simpl.
      + rewrite bool_decide_eq_false_2 in Hmissing by done.
        destruct (environ !! "REACTIONS_QUEUE_URL") as [reactions |]; simpl.
        * rewrite bool_decide_eq_false_2 in Hmissing by done. discriminate.
        * rewrite bool_decide_eq_true_2 in Hmissing by done.
          injection Hmissing as <-. by eexists.
      + rewrite bool_decide_eq_true_2 in Hmissing by done.
        injection Hmissing as <-. by eexists.
    - rewrite bool_decide_eq_true_2 in Hmissing by done.
      injection Hmissing as <-. by eexists. }
  exists st'. by rewrite Hget.
Qed.

(** X21: once [get] has returned a configuration, an invocation in the
    same process handles its batch with that configuration, whatever the
    environment has become, and leaves the configuration holder as it
    was. *)
Theorem later_invocation_reuses_configuration
    (boto3_client_sqs boto3_client_sqs' : Exn + unit)
    (environ environ' : gmap string string) (Records : list SqsRecord)
    (st st' : State) (sent : list SentMessage)
    (config : ActionEvaluatorConfig) :
  get boto3_client_sqs environ st = (inr config, st') →
  invoke boto3_client_sqs' environ' Records (st', sent)
  = ((handle config Records sent).1, (st', (handle config Records sent).2)).
Proof.
  intros Hget. unfold lambda_handler_in. simpl.
  assert (get boto3_client_sqs' environ' st' = (inr config, st')) as ->.
  { revert Hget. unfold get.
    destruct (lru_cache st) as [cached |] eqn:Hcache.
    - intros [= -> <-]. by rewrite Hcache.
    - destruct (get_body boto3_client_sqs environ st)
        as [[e | config0] st0]; [discriminate |].
      by intros [= -> <-]. }
  by destruct (lambda_handler _ _ _ _ _ _ _ _).
Qed.
End InvocationFacts.

(** ** Concrete runs of the further properties *)
Section MoreRuns.
Import Evaluator Performer EvaluatorConfig Invocation.

Lemma applies_to_no_classifications_witness :
  action_rule_applies_to_classifications elements rule_A ∅ = true
  ↔ rule_A.(must_have_labels) = ∅.
Proof.
  apply (applies_to_no_classifications elements elements_perm rule_A).
Defined.

Lemma unconstrained_rule_always_applies_witness :
  action_rule_applies_to_classifications elements rule_A {["C1"; "C2"]}
  = true.
Proof.
  apply (unconstrained_rule_always_applies elements elements_perm rule_A
           {["C1"; "C2"]}); reflexivity.
Defined.

Lemma applies_after_adding_labels_witness :
  action_rule_applies_to_classifications elements rule_C1_not_C3
    ({["C1"]} ∪ {["C2"]}) = true.
Proof.
  apply (applies_after_adding_labels elements elements_perm rule_C1_not_C3
           {["C1"]} {["C2"]}).
  - reflexivity.
  - apply (bool_decide_unpack _). vm_compute. exact I.
Defined.

Lemma not_applies_iff_witness :
  action_rule_applies_to_classifications elements rule_C1_not_C3
    {["C1"; "C3"]} = false
  ↔ (∃ l, l ∈ rule_C1_not_C3.(must_have_labels)
            ∧ l ∉ ({["C1"; "C3"]} : gset Label))
    ∨ (∃ l, l ∈ rule_C1_not_C3.(must_not_have_labels)
            ∧ l ∈ ({["C1"; "C3"]} : gset Label)).
Proof.
  apply (not_applies_iff elements elements_perm rule_C1_not_C3
           {["C1"; "C3"]}).
Defined.

Lemma lambda_handler_run_witness :
  lambda_handler elements toy_json_loads_Message toy_from_aws_json
    (store_holds [rule_C1_not_C3]) queue_accepts toy_config batch_of_three []
  = (match first_failure toy_json_loads_Message toy_from_aws_json
             batch_of_three with
     | Some e => inl e
     | None => inr [("evaluation_completed", "true")]%string
     end,
     [] ++ flat_map (emitted elements [rule_C1_not_C3] toy_config)
             (decoded_prefix toy_json_loads_Message toy_from_aws_json
                batch_of_three)).
Proof.
  apply (lambda_handler_run elements toy_json_loads_Message
           toy_from_aws_json (store_holds [rule_C1_not_C3]) queue_accepts
           toy_config batch_of_three [rule_C1_not_C3] []); reflexivity.
Defined.

(** every record of the batch decodes, yet the invocation raises: the
    queue service refuses the reaction of the first record, whose
    ActionMessage has been sent by then *)
Example lambda_handler_enqueue_failure :
  lambda_handler elements toy_json_loads_Message toy_from_aws_json
    (store_holds [rule_C1_not_C3]) queue_refuses_reactions toy_config
    batch_of_two []
  = (inl (ClientError "AccessDenied"),
     [ mkSentMessage "actions-queue"
         (ActionMessage_to_aws_json
            (mkActionMessage (mkMatchMessage "first" "hash" [signal_C1])
               "EnqueueForReview" [rule_C1_not_C3])) ]).
Proof. reflexivity. Qed.

Lemma untriggered_record_sends_reaction_witness :
  process_record elements toy_json_loads_Message toy_from_aws_json
    (store_holds [rule_contradictory]) queue_accepts toy_config
    (mkSqsRecord "first") []
  = (inr tt,
     [] ++ [ mkSentMessage toy_config.(reactions_queue_url)
               (ReactionMessage_to_aws_json
                  (mkReactionMessage
                     (mkMatchMessage "first" "hash" [signal_C1])
                     "SAW_THIS_TOO")) ]).
Proof.
  apply (untriggered_record_sends_reaction elements toy_json_loads_Message
           toy_from_aws_json (store_holds [rule_contradictory])
           queue_accepts toy_config (mkSqsRecord "first")
           (mkMatchMessage "first" "hash" [signal_C1])
           [rule_contradictory] []).
  - reflexivity.
  - reflexivity.
  - intros banked_signal action_rule Hsignal Hrule. simpl in Hsignal.
    apply list_elem_of_singleton in Hsignal.
    apply list_elem_of_singleton in Hrule.
    rewrite Hsignal, Hrule. reflexivity.
Defined.

Lemma sent_messages_routed_witness :
  "actions-queue" = toy_config.(actions_queue_url).
Proof.
  apply (sent_messages_routed elements toy_json_loads_Message
           toy_from_aws_json (store_holds [rule_C1_not_C3]) queue_accepts
           toy_config batch_of_three
           (mkSentMessage "actions-queue"
              (ActionMessage_to_aws_json
                 (mkActionMessage (mkMatchMessage "first" "hash" [signal_C1])
                    "EnqueueForReview" [rule_C1_not_C3])))).
  rewrite lambda_handler_batch_of_three. left.
Defined.

Lemma sent_action_messages_justified_witness :
  (∃ sqs_record,
     sqs_record ∈ batch_of_three
     ∧ decode toy_json_loads_Message toy_from_aws_json sqs_record
       = inr (mkMatchMessage "first" "hash" [signal_C1]))
  ∧ [rule_C1_not_C3] ≠ []
  ∧ ∃ log action_rules,
      store_holds [rule_C1_not_C3] log = inr action_rules
      ∧ Forall
          (λ action_rule,
             action_rule ∈ action_rules
             ∧ action_rule.(action_label) = "EnqueueForReview")
          [rule_C1_not_C3].
Proof.
  apply (sent_action_messages_justified elements toy_json_loads_Message
           toy_from_aws_json (store_holds [rule_C1_not_C3]) queue_accepts
           toy_config batch_of_three
           (mkSentMessage "actions-queue"
              (ActionMessage_to_aws_json
                 (mkActionMessage (mkMatchMessage "first" "hash" [signal_C1])
                    "EnqueueForReview" [rule_C1_not_C3])))
           (mkActionMessage (mkMatchMessage "first" "hash" [signal_C1])
              "EnqueueForReview" [rule_C1_not_C3])).
  - rewrite lambda_handler_batch_of_three. left.
  - reflexivity.
Defined.


Lemma config_get_first_call_witness :
  get (inr tt) environ_complete state_cold
  = (inr (mkActionEvaluatorConfig "actions-queue" "reactions-queue"),
     mkState ([] ++ ["hma-config"])
       (Some (mkActionEvaluatorConfig "actions-queue" "reactions-queue"))).
Proof.
  apply (config_get_first_call (inr tt) environ_complete state_cold
           "hma-config" "actions-queue" "reactions-queue"); reflexivity.
Defined.

(** the same environment where no client can be created: [get] raises
    after [HMAConfig] has been initialised, and caches nothing *)
Example config_get_no_region :
  get (inl NoRegionError) environ_complete state_cold
  = (inl NoRegionError, mkState ["hma-config"] None).
Proof. reflexivity. Qed.

Lemma config_get_is_cached_witness :
  get (inl NoRegionError) ∅
    (mkState ["hma-config"]
       (Some (mkActionEvaluatorConfig "actions-queue" "reactions-queue")))
  = (inr (mkActionEvaluatorConfig "actions-queue" "reactions-queue"),
     mkState ["hma-config"]
       (Some (mkActionEvaluatorConfig "actions-queue" "reactions-queue"))).
Proof.
  apply (config_get_is_cached (inr tt) (inl NoRegionError) environ_complete
           ∅ state_cold).
  reflexivity.
Defined.

Lemma config_get_missing_variable_witness :
  get (inr tt) environ_without_reactions state_cold
  = (inl (KeyError "REACTIONS_QUEUE_URL"),
     mkState
       ([] ++ match environ_without_reactions !! "CONFIG_TABLE_NAME" with
              | Some table_name => [table_name]
              | None => []
              end)
       None).
Proof.
  apply (config_get_missing_variable (inr tt) environ_without_reactions
           state_cold "REACTIONS_QUEUE_URL"); reflexivity.
Defined.

Lemma misconfigured_invocation_sends_nothing_witness :
  ∃ st',
    lambda_handler_in elements toy_json_loads_Message toy_from_aws_json
      (store_holds [rule_C1_not_C3]) queue_accepts (inr tt)
      environ_without_reactions batch_of_three (state_cold, [])
    = (inl (KeyError "REACTIONS_QUEUE_URL"), (st', [])).
Proof.
  apply (misconfigured_invocation_sends_nothing elements
           toy_json_loads_Message toy_from_aws_json
           (store_holds [rule_C1_not_C3]) queue_accepts (inr tt)
           environ_without_reactions batch_of_three state_cold []
           "REACTIONS_QUEUE_URL"); reflexivity.
Defined.

Lemma later_invocation_reuses_configuration_witness :
  lambda_handler_in elements toy_json_loads_Message toy_from_aws_json
    (store_holds [rule_C1_not_C3]) queue_accepts (inl NoRegionError) ∅
    batch_of_three
    (mkState ["hma-config"]
       (Some (mkActionEvaluatorConfig "actions-queue" "reactions-queue")),
     [])
  = ((lambda_handler elements toy_json_loads_Message toy_from_aws_json
        (store_holds [rule_C1_not_C3]) queue_accepts
        (mkActionEvaluatorConfig "actions-queue" "reactions-queue")
        batch_of_three []).1,
     (mkState ["hma-config"]
        (Some (mkActionEvaluatorConfig "actions-queue" "reactions-queue")),
      (lambda_handler elements toy_json_loads_Message toy_from_aws_json
         (store_holds [rule_C1_not_C3]) queue_accepts
         (mkActionEvaluatorConfig "actions-queue" "reactions-queue")
         batch_of_three []).2)).
Proof.
  apply (later_invocation_reuses_configuration elements
           toy_json_loads_Message toy_from_aws_json
           (store_holds [rule_C1_not_C3]) queue_accepts
           (inr tt) (inl NoRegionError) environ_complete ∅ batch_of_three
           state_cold).
  reflexivity.
Defined.
End MoreRuns.
